(** * OllaHub scraper: a shallow embedding of [src-tauri/scripts/scraper.py]

    The script is a one-shot subprocess: it reads one JSON command, fetches
    pages or queries a search engine, and prints one JSON answer.  Python
    values are embedded as follows.

    - [str] is [string]; a character of the Python string is a character of
      the Rocq string, so [len] is [String.length].  [str.lower] and
      [str.strip] are embedded on the ASCII range.
    - [int] is [Z]; [//] is [Z.div] (both round towards minus infinity).
    - a [dict] that ends up printed as JSON is an association list in
      insertion order; the [set] of seen URLs is a [gset string].
    - what the script imports (urllib, curl_cffi, bs4, html2text, json) is a
      [Libraries] instance; a call that may raise returns an [outcome].
    - the network and the thread scheduler are fields of the [World] that the
      effectful functions thread through.

    Logging goes to stderr and is left out, and so are the request headers
    with their random User-Agent, which no answer depends on.  [print_json]
    is embedded on values that [json.dumps] accepts, so its fallback branch
    is left out as well. *)

From Stdlib Require Import ZArith Ascii String.
From stdpp Require Import gmap strings list pretty.

Set Warnings "-register-all,-abstract-large-number,-clear-no-such-hyp".

Local Open Scope Z_scope.
Local Open Scope nat_scope.

(** ** Python values *)

(** What a call gives back: a value, or an exception with its [str(e)]. *)
Inductive outcome (A : Type) : Type :=
| Returned (a : A)
| Raised (e : string).
Arguments Returned {A} a.
Arguments Raised {A} e.

(** The JSON-shaped values that the script builds and prints. *)
Inductive value : Type :=
| VStr (s : string)
| VList (l : list value)
| VDict (d : list (string * value)).

Abbreviation dict := (list (string * value)).

Module Py.

(** [d.get(k)] *)
Fixpoint get (k : string) (d : dict) : option value :=
  match d with
  | [] => None
  | (k', v) :: d' => if String.eqb k' k then Some v else get k d'
  end.

(** [c.lower()] for one ASCII character *)
Definition lower_char (c : ascii) : ascii :=
  let n := N_of_ascii c in
  if (65 <=? n)%N && (n <=? 90)%N then ascii_of_N (n + 32) else c.

(** [s.lower()] *)
Fixpoint lower (s : string) : string :=
  match s with
  | EmptyString => EmptyString
  | String c s' => String (lower_char c) (lower s')
  end.

(** [needle in hay] on strings *)
Fixpoint contains (needle hay : string) : bool :=
  String.prefix needle hay ||
  match hay with
  | EmptyString => false
  | String _ hay' => contains needle hay'
  end.

(** [c.isspace()] on the ASCII range: TAB, LF, VT, FF, CR, FS, GS, RS, US
    and the space. *)
Definition isspace (c : ascii) : bool :=
  let n := N_of_ascii c in
  ((9 <=? n)%N && (n <=? 13)%N) || ((28 <=? n)%N && (n <=? 32)%N).

Fixpoint lstrip (s : string) : string :=
  match s with
  | EmptyString => EmptyString
  | String c s' => if isspace c then lstrip s' else s
  end.

Definition rstrip (s : string) : string := String.rev (lstrip (String.rev s)).

(** [s.strip()] *)
Definition strip (s : string) : string := rstrip (lstrip s).

(** [s.split(sep)] for a one-character separator; [cur] is the piece being
    read, reversed. *)
Fixpoint split_go (sep : ascii) (cur : string) (s : string) : list string :=
  match s with
  | EmptyString => [String.rev cur]
  | String c s' =>
      if Ascii.eqb c sep then String.rev cur :: split_go sep EmptyString s'
      else split_go sep (String c cur) s'
  end.

Definition split (sep : ascii) (s : string) : list string :=
  split_go sep EmptyString s.

(** [sep.join(l)] *)
Definition join (sep : string) (l : list string) : string := String.concat sep l.

(** [s[:n]] *)
Fixpoint slice_to (n : nat) (s : string) : string :=
  match n, s with
  | S n', String c s' => String c (slice_to n' s')
  | _, _ => EmptyString
  end.

(** Truth value of a string: empty strings are false. *)
Definition truthy (s : string) : bool :=
  match s with EmptyString => false | _ => true end.

(** [a or b] where [a] may be [None] or an empty string. *)
Definition or_str (a : option string) (b : option string) : option string :=
  match a with
  | Some s => if truthy s then Some s else b
  | None => b
  end.

(** The double quote, as a one-character string. *)
Definition dq : string := String (ascii_of_N 34) EmptyString.

Definition newline : ascii := ascii_of_N 10.
Definition nl : string := String newline EmptyString.

End Py.

(** ** The document tree of bs4 *)

(** A node is a text node or a tag.  bs4 keeps the [class] attribute as a list
    of names; the other attributes are name/value pairs. *)
Inductive node : Type :=
| NavigableString (s : string)
| Tag (name : string) (attrs : list (string * string)) (class_ : list string)
      (contents : list node).

(** The root that [BeautifulSoup(...)] returns is itself a tag. *)
Definition ROOT_TAG_NAME : string := "[document]".

Module Bs4.

(** All nodes below [n], in document order. *)
Fixpoint descendants (n : node) : list node :=
  match n with
  | NavigableString _ => []
  | Tag _ _ _ cs =>
      (fix below (l : list node) : list node :=
         match l with
         | [] => []
         | c :: l' => c :: descendants c ++ below l'
         end) cs
  end.

Definition tag_name (n : node) : option string :=
  match n with Tag nm _ _ _ => Some nm | NavigableString _ => None end.

(** [tag.get(key)] for an attribute other than [class] *)
Definition get (key : string) (n : node) : option string :=
  match n with
  | Tag _ attrs _ _ =>
      snd <$> List.find (λ kv, String.eqb (fst kv) key) attrs
  | NavigableString _ => None
  end.

Definition has_class (c : string) (n : node) : bool :=
  match n with
  | Tag _ _ cls _ => existsb (String.eqb c) cls
  | NavigableString _ => false
  end.

Definition is_named (names : list string) (n : node) : bool :=
  match tag_name n with
  | Some nm => existsb (String.eqb nm) names
  | None => false
  end.

Definition has_attr (key val : string) (n : node) : bool :=
  match get key n with
  | Some v => String.eqb v val
  | None => false
  end.

(** [soup.find_all(...)]: the tags below [soup] that match, in document
    order; [soup.find(...)] is the first of them. *)
Definition find_all_by (p : node → bool) (soup : node) : list node :=
  List.filter p (descendants soup).

Definition find_by (p : node → bool) (soup : node) : option node :=
  head (find_all_by p soup).

(** [soup.find(name)] looks for a tag called [name]. *)
Definition find (name : string) (soup : node) : option node :=
  find_by (is_named [name]) soup.

(** [soup.select_one('[key="val"]')] *)
Definition select_one_attr (key val : string) (soup : node) : option node :=
  find_by (has_attr key val) soup.

(** [soup.select_one('.cls')], which the script never calls; the
    specification's reading of the class selectors uses it. *)
Definition select_one_class (cls : string) (soup : node) : option node :=
  find_by (has_class cls) soup.

(** The text nodes below [n], in document order. *)
Definition strings (n : node) : list string :=
  omap (λ d, match d with NavigableString s => Some s | _ => None end)
       (descendants n).

(** [n.get_text(strip=True)]: each text node stripped, the empty ones
    dropped, the rest concatenated. *)
Definition get_text_strip (n : node) : string :=
  Py.join EmptyString (List.filter Py.truthy (Py.strip <$> strings n)).

(** [n.get_text(separator=sep)] *)
Definition get_text_sep (sep : string) (n : node) : string :=
  Py.join sep (strings n).

(** [tag.string]: the text of a tag whose only child is a text node, or
    whose only child is a tag that has a [.string]. *)
Fixpoint string_ (n : node) : option string :=
  match n with
  | NavigableString s => Some s
  | Tag _ _ _ [c] => string_ c
  | Tag _ _ _ _ => None
  end.

(** The tree after [t.decompose()] on every tag below [n] whose name is in
    [names]. *)
Fixpoint decompose_all (names : list string) (n : node) : node :=
  match n with
  | NavigableString _ => n
  | Tag nm attrs cls cs =>
      Tag nm attrs cls
        ((fix keep (l : list node) : list node :=
            match l with
            | [] => []
            | c :: l' =>
                if is_named names c then keep l'
                else decompose_all names c :: keep l'
            end) cs)
  end.

(** The parser [html.parser] builds a tag only from a name that starts with
    a letter. *)
Definition html_name (nm : string) : bool :=
  match nm with
  | String c _ =>
      let n := N_of_ascii c in
      ((65 <=? n)%N && (n <=? 90)%N) || ((97 <=? n)%N && (n <=? 122)%N)
  | EmptyString => false
  end.

Definition parsed (soup : node) : Prop :=
  ∀ d nm, d ∈ descendants soup → tag_name d = Some nm → html_name nm = true.

End Bs4.

(** ** What the script imports *)

(** The three parts of [urlparse(url)] that the script reads. *)
Record ParseResult := {
  scheme : string;
  netloc : string;
  path : string
}.

(** What [requests.get] returns: [status_error] is the message of the
    exception that [raise_for_status] raises, if the status makes it raise;
    [content] is the body. *)
Record Response := {
  status_error : option string;
  content : string;
  text : string
}.

(** The fields of the search configuration; a key may be missing from the
    JSON object, and the script then falls back on a default. *)
Record Category := {
  enabled : option bool;
  base_sites : option (list string)
}.

Record Config := {
  total_sources_limit : option Z;
  categories : option (list Category);
  user_custom_sites : option (list string);
  excluded_domains : option (list string)
}.

(** The command object, with the keys that [main] reads. *)
Record Command := {
  cmd_command : option string;
  cmd_url : option string;
  cmd_visible : option bool;
  cmd_query : option string;
  cmd_limit : option Z;
  cmd_config : option Config;
  cmd_urls : option (list string)
}.

(** What [json.loads] returns: an object, or a JSON value of another Python
    type, given by the name of that type. *)
Inductive Parsed : Type :=
| PObject (c : Command)
| POther (type_name : string).

Class Libraries := {
  (** set at import time, by whether the three imports succeed *)
  CURL_CFFI_AVAILABLE : bool;
  BS4_AVAILABLE : bool;
  HTML2TEXT_AVAILABLE : bool;
  (** [urllib.parse] *)
  urlparse : string → outcome ParseResult;
  quote : string → string;
  (** [BeautifulSoup(body, 'html.parser')] *)
  BeautifulSoup : string → outcome node;
  (** [str(tag)] *)
  tag_str : node → string;
  (** [h.handle(html)] of an [HTML2Text] with links and images kept and
      [body_width = 0] *)
  html2text_handle : string → outcome string;
  (** [json.loads] *)
  json_loads : string → outcome Parsed
}.

(** ** URL utilities *)

Section Url.
Context `{Libraries}.

Definition clean_url (url : string) : string :=
  match urlparse url with
  | Returned parsed => scheme parsed +:+ "://" +:+ netloc parsed +:+ path parsed
  | Raised _ => url
  end.

Definition extract_domain (url : string) : string :=
  match urlparse url with
  | Returned parsed => netloc parsed
  | Raised _ => EmptyString
  end.

Definition trackers : list string :=
  ["analytics"; "google-analytics"; "doubleclick"; "facebook.com/tr"; "ads.";
   "banner"; "tracking"].

Definition is_ad_or_tracker_url (url : string) : bool :=
  existsb (λ tracker, Py.contains tracker (Py.lower url)) trackers.

Definition is_domain_blocked (url : string) (excluded_domains : list string) : bool :=
  let domain := extract_domain url in
  existsb (λ excluded, Py.contains excluded domain) excluded_domains.

End Url.

(** ** The single-page fetcher *)

Definition error_dict (message : string) : dict :=
  [("type", VStr "error"); ("message", VStr message)].

Definition has_type (t : string) (result : dict) : bool :=
  match Py.get "type" result with
  | Some (VStr s) => String.eqb s t
  | _ => false
  end.

(** [result.get('type') == 'success'] *)
Definition is_success (result : dict) : bool := has_type "success" result.
Definition is_error (result : dict) : bool := has_type "error" result.

Section Scrape.
Context `{Libraries}.

(** Lines 179-182: the title. *)
Definition is_meta_with (key val : string) (t : node) : bool :=
  Bs4.is_named ["meta"] t && Bs4.has_attr key val t.

Definition find_title_tag (soup : node) : option node :=
  match Bs4.find_by (is_meta_with "property" "og:title") soup with
  | Some t => Some t
  | None =>
      match Bs4.find_by (is_meta_with "name" "title") soup with
      | Some t => Some t
      | None => Bs4.find "title" soup
      end
  end.

Definition extract_title (soup : node) : string :=
  let title := "Sem título" in
  match find_title_tag soup with
  | Some title_tag =>
      default title (Py.or_str (Bs4.get "content" title_tag)
                       (Py.or_str (Bs4.string_ title_tag) None))
  | None => title
  end.

(** Lines 185-190: scripts, styles and page furniture are removed. *)
Definition strip_noncontent (soup : node) : node :=
  Bs4.decompose_all ["nav"; "header"; "footer"; "aside"; "ads"]
    (Bs4.decompose_all ["script"; "style"; "meta"; "link"; "noscript"] soup).

(** Lines 195-198: the lookup made for one selector. *)
Definition lookup_selector (selector : string) (soup : node) : option node :=
  if String.prefix "[" selector then
    (* the only selector of this form in the list *)
    Bs4.select_one_attr "role" "main" soup
  else Bs4.find selector soup.

Definition selectors : list string :=
  ["article"; "main"; "[role=" +:+ Py.dq +:+ "main" +:+ Py.dq +:+ "]";
   ".content"; ".post"; ".entry"].

(** Lines 193-200: the loop; [main_content] is the variable that each
    round overwrites, and the result is its value when the loop ends. *)
Fixpoint select_loop (sels : list string) (soup : node) (main_content : option node)
  : option node :=
  match sels with
  | [] => main_content
  | selector :: rest =>
      let main_content := lookup_selector selector soup in
      match main_content with
      | Some m =>
          if 200 <? String.length (Bs4.get_text_strip m) then main_content
          else select_loop rest soup main_content
      | None => select_loop rest soup main_content
      end
  end.

(** Lines 193-204. *)
Definition select_main_content (soup : node) : node :=
  let main_content := select_loop selectors soup None in
  match main_content with
  | Some m =>
      if String.length (Bs4.get_text_strip m) <? 200
      then default soup (Bs4.find "body" soup)
      else m
  | None => default soup (Bs4.find "body" soup)
  end.

(** Lines 209-218: the conversion, with its fallback on plain text. *)
Definition to_markdown (main_content : node) : string :=
  let html_content := tag_str main_content in
  match html2text_handle html_content with
  | Returned markdown_content => markdown_content
  | Raised _ => Bs4.get_text_sep Py.nl main_content
  end.

(** Lines 221-222. *)
Definition final_cleanup (markdown_content : string) : string :=
  let lines :=
    List.filter Py.truthy (Py.strip <$> Py.split Py.newline markdown_content) in
  Py.join Py.nl lines.

(** Lines 109-222: everything up to the final text.  The left results are
    the error answers of the early returns. *)
Definition extract (o : outcome Response) : dict + (string * string) :=
  if negb CURL_CFFI_AVAILABLE then inl (error_dict "curl_cffi não está instalado")
  else if negb BS4_AVAILABLE then inl (error_dict "beautifulsoup4 não está instalado")
  else if negb HTML2TEXT_AVAILABLE then inl (error_dict "html2text não está instalado")
  else
    match o with
    | Raised e => inl (error_dict ("Failed to fetch URL: " +:+ e))
    | Returned response =>
        match status_error response with
        | Some e => inl (error_dict ("Failed to fetch URL: " +:+ e))
        | None =>
            if String.length (content response) <? 100
            then inl (error_dict "Resposta muito curta (< 100 bytes)")
            else
              match BeautifulSoup (content response) with
              | Raised e => inl (error_dict ("Failed to parse HTML: " +:+ e))
              | Returned soup =>
                  let title := extract_title soup in
                  let soup := strip_noncontent soup in
                  let main_content := select_main_content soup in
                  let markdown_content := to_markdown main_content in
                  inr (title, final_cleanup markdown_content)
              end
        end
    end.

(** [scrape_url(url)], given what the transport answers to the request. *)
Definition scrape_url (url : string) (o : outcome Response) : dict :=
  match extract o with
  | inl err => err
  | inr (title, final_content) =>
      if String.length final_content <? 100
      then error_dict ("Conteúdo insuficiente (" +:+ pretty (String.length final_content)
                         +:+ " chars)")
      else
        [("type", VStr "success");
         ("url", VStr (clean_url url));
         ("title", VStr (Py.slice_to 500 title));
         ("content", VStr (Py.slice_to 30000 final_content));
         ("markdown", VStr (Py.slice_to 30000 final_content))]
  end.

End Scrape.

(** ** The search provider adapter: what it makes of one answer *)

Section SearchResults.
Context `{Libraries}.

(** Lines 275-282: the loop over the result links; [urls] is the list
    built so far.  The length test comes after the [append]. *)
Fixpoint collect_hrefs (results : list node) (limit : Z) (urls : list string)
  : list string :=
  match results with
  | [] => urls
  | result :: rest =>
      match Bs4.get "href" result with
      | Some href =>
          if Py.truthy href && negb (is_ad_or_tracker_url href) then
            let urls := urls ++ [href] in
            if (limit <=? Z.of_nat (length urls))%Z then urls
            else collect_hrefs rest limit urls
          else collect_hrefs rest limit urls
      | None => collect_hrefs rest limit urls
      end
  end.

(** [soup.find_all('a', {'class': 'result__a'})] *)
Definition result_links (soup : node) : list node :=
  Bs4.find_all_by (λ t, Bs4.is_named ["a"] t && Bs4.has_class "result__a" t) soup.

(** Lines 271-289, given what the transport answers: every exception
    ends in the handler that returns the empty list. *)
Definition search_results (o : outcome Response) (limit : Z) : list string :=
  match o with
  | Raised _ => []
  | Returned response =>
      match status_error response with
      | Some _ => []
      | None =>
          match BeautifulSoup (content response) with
          | Raised _ => []
          | Returned soup => collect_hrefs (result_links soup) limit []
          end
      end
  end.

End SearchResults.

(** ** The thread pool of [concurrent.futures]

    [ThreadPoolExecutor(max_workers)] keeps a queue of work items and a list
    of worker threads.  [submit] puts the item in the queue and starts a new
    thread when no thread has announced itself idle and fewer than
    [max_workers] threads exist.  A worker takes the next item of the queue
    and runs it; when it finds the queue empty it announces itself idle and
    waits.  [as_completed] hands out the finished futures, one at a time, in
    no fixed order.  The scheduler is a list of choices: which of the main
    thread and the workers moves next. *)

Module Pool.
Section Pool.
Context {T R : Type}.
(** What running a work item gives. *)
Variable work : T → R.
Variable max_workers : nat.

Inductive thread : Type :=
| Free              (* between two work items *)
| Waiting           (* announced idle, blocked on the empty queue *)
| Busy (t : T).     (* running a work item *)

Record state := {
  to_submit : list T;      (* what the caller has not submitted yet *)
  work_queue : list T;
  threads : list thread;
  idle_semaphore : nat;
  finished : list R;       (* results of finished futures, not handed out yet *)
  yielded : list R         (* results handed out by as_completed, in order *)
}.

Definition init (tasks : list T) : state :=
  {| to_submit := tasks; work_queue := []; threads := []; idle_semaphore := 0;
     finished := []; yielded := [] |}.

Inductive choice : Type :=
| Submit              (* the caller submits its next item *)
| Step (i : nat)      (* worker [i] moves *)
| Yield (k : nat).    (* as_completed hands out the [k]-th finished future *)

Definition submit (s : state) : option state :=
  match to_submit s with
  | [] => None
  | t :: ts =>
      let q := work_queue s ++ [t] in
      if 0 <? idle_semaphore s then
        Some {| to_submit := ts; work_queue := q; threads := threads s;
                idle_semaphore := idle_semaphore s - 1;
                finished := finished s; yielded := yielded s |}
      else if length (threads s) <? max_workers then
        Some {| to_submit := ts; work_queue := q; threads := threads s ++ [Free];
                idle_semaphore := idle_semaphore s;
                finished := finished s; yielded := yielded s |}
      else
        Some {| to_submit := ts; work_queue := q; threads := threads s;
                idle_semaphore := idle_semaphore s;
                finished := finished s; yielded := yielded s |}
  end.

Definition take_item (i : nat) (s : state) : option state :=
  match work_queue s with
  | [] => None
  | t :: q =>
      Some {| to_submit := to_submit s; work_queue := q;
              threads := <[i := Busy t]> (threads s);
              idle_semaphore := idle_semaphore s;
              finished := finished s; yielded := yielded s |}
  end.

Definition step_thread (i : nat) (s : state) : option state :=
  match threads s !! i with
  | None => None
  | Some Free =>
      match take_item i s with
      | Some s' => Some s'
      | None =>
          Some {| to_submit := to_submit s; work_queue := work_queue s;
                  threads := <[i := Waiting]> (threads s);
                  idle_semaphore := S (idle_semaphore s);
                  finished := finished s; yielded := yielded s |}
      end
  | Some Waiting => take_item i s
  | Some (Busy t) =>
      Some {| to_submit := to_submit s; work_queue := work_queue s;
              threads := <[i := Free]> (threads s);
              idle_semaphore := idle_semaphore s;
              finished := finished s ++ [work t]; yielded := yielded s |}
  end.

(** [as_completed] runs once the caller has submitted everything. *)
Definition yield (k : nat) (s : state) : option state :=
  match to_submit s, finished s !! k with
  | [], Some r =>
      Some {| to_submit := []; work_queue := work_queue s; threads := threads s;
              idle_semaphore := idle_semaphore s;
              finished := delete k (finished s); yielded := yielded s ++ [r] |}
  | _, _ => None
  end.

Definition step (c : choice) (s : state) : option state :=
  match c with
  | Submit => submit s
  | Step i => step_thread i s
  | Yield k => yield k s
  end.

(** A choice that is not enabled leaves the state as it is. *)
Fixpoint exec (sched : list choice) (s : state) : state :=
  match sched with
  | [] => s
  | c :: sched' => exec sched' (default s (step c s))
  end.

(** The work items that are being run. *)
Definition item_of (th : thread) : option T :=
  match th with Busy t => Some t | _ => None end.

Definition running (s : state) : list T := omap item_of (threads s).

Definition in_flight (s : state) : nat := length (running s).

(** Everything is submitted, run and handed out. *)
Definition terminal (s : state) : bool :=
  match to_submit s, work_queue s, running s, finished s with
  | [], [], [], [] => true
  | _, _, _, _ => false
  end.

(** *** Running to the end

    Whatever the scheduler did so far, the [with] block ends only when
    every future is done: the caller submits what is left, the workers run
    until none can move, and as_completed hands out what is finished. *)

Definition can_move (s : state) (th : thread) : bool :=
  match th, work_queue s with
  | Waiting, [] => false
  | _, _ => true
  end.

Definition first_movable (s : state) : option nat :=
  fst <$> list_find (λ th, can_move s th) (threads s).

Fixpoint run_threads (fuel : nat) (s : state) : state :=
  match fuel with
  | 0 => s
  | S fuel' =>
      match first_movable s with
      | Some i => run_threads fuel' (default s (step (Step i) s))
      | None => s
      end
  end.

Definition weight (th : thread) : nat :=
  match th with Busy _ => 2 | Free => 1 | Waiting => 0 end.

(** A bound on the number of moves the workers can still make. *)
Definition moves_left (s : state) : nat :=
  3 * length (work_queue s) + sum_list (weight <$> threads s).

Definition submit_all (s : state) : state :=
  exec (replicate (length (to_submit s)) Submit) s.

Definition yield_all (s : state) : state :=
  exec (replicate (length (finished s)) (Yield 0)) s.

Definition complete (s : state) : state :=
  let s := submit_all s in
  yield_all (run_threads (moves_left s) s).

(** *** What the executions keep invariant *)

(** The results the state accounts for: those handed out, those finished,
    and those of the work items that are running, queued or not submitted. *)
Definition results_of (s : state) : list R :=
  yielded s ++ finished s ++ (work <$> (running s ++ work_queue s ++ to_submit s)).

(** A queued item, or an announcement of idleness, implies a worker. *)
Definition served (s : state) : Prop :=
  (work_queue s ≠ [] ∨ 0 < idle_semaphore s) → threads s ≠ [].

End Pool.
End Pool.

(** ** The world outside the process *)

(** [transport n url] is what the network answers to the [n]-th request of
    the run when it asks for [url]; [issued] counts the requests made so far.
    [searches] records the calls of [search_duckduckgo], oldest first, and
    [stdout] what has been printed.  [scheduler] is what the thread
    scheduler will choose during the next bulk fetch. *)
Record World := {
  transport : nat → string → outcome Response;
  issued : nat;
  searches : list (string * Z);
  stdout : list value;
  scheduler : list (@Pool.choice)
}.

(** A computation reads and updates the world. *)
Definition M (A : Type) : Type := World → A * World.

Global Instance M_ret : MRet M := λ A a w, (a, w).
Global Instance M_bind : MBind M := λ A B k m w, let '(a, w') := m w in k a w'.

(** [requests.get(url, ...)] *)
Definition requests_get (url : string) : M (outcome Response) := λ w,
  (transport w (issued w) url,
   {| transport := transport w; issued := S (issued w); searches := searches w;
      stdout := stdout w; scheduler := scheduler w |}).

Definition record_search (query : string) (limit : Z) : M unit := λ w,
  (tt,
   {| transport := transport w; issued := issued w;
      searches := searches w ++ [(query, limit)];
      stdout := stdout w; scheduler := scheduler w |}).

(** [print_json(data)] *)
Definition print_json (data : dict) : M unit := λ w,
  (tt,
   {| transport := transport w; issued := issued w; searches := searches w;
      stdout := stdout w ++ [VDict data]; scheduler := scheduler w |}).

(** The world after one more value has been printed. *)
Definition printed (data : dict) (w : World) : World := (print_json data w).2.

Section Search.
Context `{Libraries}.

(** Lines 248-289. *)
Definition search_duckduckgo (query : string) (limit : Z) : M (list string) :=
  _ ← record_search query limit;
  if negb CURL_CFFI_AVAILABLE || negb BS4_AVAILABLE then mret []
  else
    let search_url := "https://duckduckgo.com/html/?q=" +:+ quote query in
    response ← requests_get search_url;
    mret (search_results response limit).

(** Lines 313-316: the site-scoped queries for a list of sites. *)
Fixpoint search_sites (limit : Z) (query : string) (sites : list string)
    (all_urls : list string) : M (list string) :=
  match sites with
  | [] => mret all_urls
  | site :: rest =>
      let site_query := "site:" +:+ site +:+ " " +:+ query in
      site_urls ← search_duckduckgo site_query limit;
      search_sites limit query rest (all_urls ++ site_urls)
  end.

(** Lines 308-316. *)
Fixpoint search_categories (query : string) (cats : list Category)
    (all_urls : list string) : M (list string) :=
  match cats with
  | [] => mret all_urls
  | category :: rest =>
      if negb (default false (enabled category)) then
        search_categories query rest all_urls
      else
        let base_sites := default [] (base_sites category) in
        all_urls ← search_sites 3 query (take 2 base_sites) all_urls;
        search_categories query rest all_urls
  end.

Definition total_limit (config : Config) : Z :=
  default 15%Z (total_sources_limit config).

(** Lines 301-322: the queries, and the list that collects their results. *)
Definition gather_urls (query : string) (config : Config) : M (list string) :=
  let categories := default [] (categories config) in
  let user_custom_sites := default [] (user_custom_sites config) in
  let all_urls := [] in
  general_urls ← search_duckduckgo query (total_limit config `div` 2)%Z;
  let all_urls := all_urls ++ general_urls in
  all_urls ← search_categories query categories all_urls;
  search_sites 2 query (take 3 user_custom_sites) all_urls.

(** Lines 325-332: the filter; the length test comes after the [append]. *)
Fixpoint filter_loop (excluded_domains : list string) (total_limit : Z)
    (all_urls : list string) (filtered_urls : list string) (seen : gset string)
  : list string :=
  match all_urls with
  | [] => filtered_urls
  | url :: rest =>
      if bool_decide (url ∉ seen) && negb (is_domain_blocked url excluded_domains) then
        let filtered_urls := filtered_urls ++ [url] in
        let seen := {[url]} ∪ seen in
        if (total_limit <=? Z.of_nat (length filtered_urls))%Z then filtered_urls
        else filter_loop excluded_domains total_limit rest filtered_urls seen
      else filter_loop excluded_domains total_limit rest filtered_urls seen
  end.

Definition filter_urls (config : Config) (all_urls : list string) : list string :=
  filter_loop (default [] (excluded_domains config)) (total_limit config)
    all_urls [] ∅.

(** Lines 291-339. *)
Definition smart_search_impl (query : string) (config : Config) : M (list string) :=
  all_urls ← gather_urls query config;
  mret (filter_urls config all_urls).

End Search.

(** ** The bulk fetch orchestrator *)

Section Bulk.
Context `{Libraries}.

(** Lines 348-358; [fetched] is what the call of [scrape_url] does: it
    returns a result, or raises. *)
Definition scrape_with_logging (url : string) (fetched : outcome dict) : dict :=
  match fetched with
  | Returned result => result
  | Raised e => [("type", VStr "error"); ("message", VStr e); ("url", VStr url)]
  end.

(** Line 361: the pool of the bulk fetch has five workers. *)
Definition MAX_WORKERS : nat := 5.

(** Lines 361-362: one work item per URL.  [fetch i url] is what the call
    of [scrape_url] for the URL at position [i] does. *)
Definition bulk_tasks (urls : list string) : list (nat * string) :=
  imap (λ i url, (i, url)) urls.

Definition bulk_work (fetch : nat → string → outcome dict) (task : nat * string)
  : dict :=
  scrape_with_logging task.2 (fetch task.1 task.2).

(** The pool after the scheduler has made the choices of [sched]. *)
Definition bulk_state (fetch : nat → string → outcome dict) (urls : list string)
    (sched : list Pool.choice) : Pool.state :=
  Pool.exec (bulk_work fetch) MAX_WORKERS sched (Pool.init (bulk_tasks urls)).

(** Lines 361-372: the block ends when every future is done; the loop over
    [as_completed] keeps the results that are a success. *)
Definition bulk_results (fetch : nat → string → outcome dict) (urls : list string)
    (sched : list Pool.choice) : list dict :=
  let s := Pool.complete (bulk_work fetch) MAX_WORKERS (bulk_state fetch urls sched) in
  filter (λ result, is_success result) (Pool.yielded s).

(** A fetch that does not need the network makes no request. *)
Definition dependencies_available : bool :=
  CURL_CFFI_AVAILABLE && BS4_AVAILABLE && HTML2TEXT_AVAILABLE.

(** [scrape_url(url)], as a computation. *)
Definition scrape_url_io (url : string) : M dict :=
  if dependencies_available then
    response ← requests_get url;
    mret (scrape_url url response)
  else mret (scrape_url url (Raised EmptyString)).

(** [scrape_urls_bulk_impl(urls)], as a computation: the work item of the
    URL at position [i] makes the request numbered [issued + i]. *)
Definition scrape_urls_bulk_impl (urls : list string) : M (list dict) := λ w,
  let fetch i url := Returned (scrape_url url (transport w (issued w + i) url)) in
  (bulk_results fetch urls (scheduler w),
   {| transport := transport w; issued := issued w + length urls;
      searches := searches w; stdout := stdout w; scheduler := [] |}).

End Bulk.

(** ** The command dispatcher *)

Section Main.
Context `{Libraries}.

Definition success_urls (urls : list string) : dict :=
  [("type", VStr "success"); ("urls", VList (VStr <$> urls))].

Definition success_results (results : list dict) : dict :=
  [("type", VStr "success"); ("results", VList (VDict <$> results))].

(** [not s] for a string that may be missing. *)
Definition falsy (s : option string) : bool :=
  match s with
  | Some s => negb (Py.truthy s)
  | None => true
  end.

(** Lines 462-475. *)
Definition check : M unit :=
  let missing :=
    (if negb CURL_CFFI_AVAILABLE then ["curl_cffi"] else []) ++
    (if negb BS4_AVAILABLE then ["beautifulsoup4"] else []) ++
    (if negb HTML2TEXT_AVAILABLE then ["html2text"] else []) in
  match missing with
  | [] => print_json [("type", VStr "success");
                      ("message", VStr "All dependencies available")]
  | _ => print_json (error_dict ("Missing: " +:+ Py.join ", " missing))
  end.

(** Lines 396-478: the dispatch on the command tag. *)
Definition dispatch (command_data : Command) : M unit :=
  let command := cmd_command command_data in
  if bool_decide (command = Some "scrape") then
    let url := cmd_url command_data in
    if falsy url then print_json (error_dict "URL missing")
    else
      result ← scrape_url_io (default EmptyString url);
      print_json result
  else if bool_decide (command = Some "search_duckduckgo") then
    let query := cmd_query command_data in
    let limit := default 5%Z (cmd_limit command_data) in
    if falsy query then print_json (error_dict "Query missing")
    else
      urls ← search_duckduckgo (default EmptyString query) limit;
      print_json (success_urls urls)
  else if bool_decide (command = Some "smart_search") then
    let query := cmd_query command_data in
    let config := default (Build_Config None None None None) (cmd_config command_data) in
    if falsy query then print_json (error_dict "Query missing")
    else
      urls ← smart_search_impl (default EmptyString query) config;
      print_json (success_urls urls)
  else if bool_decide (command = Some "search_and_scrape") then
    let query := cmd_query command_data in
    let config := default (Build_Config None None None None) (cmd_config command_data) in
    if falsy query then print_json (error_dict "Query missing")
    else
      urls ← smart_search_impl (default EmptyString query) config;
      match urls with
      | [] => print_json (success_results [])
      | _ =>
          results ← scrape_urls_bulk_impl urls;
          print_json (success_results results)
      end
  else if bool_decide (command = Some "scrape_urls_bulk") then
    let urls := default [] (cmd_urls command_data) in
    match urls with
    | [] => print_json (error_dict "URLs missing")
    | _ =>
        results ← scrape_urls_bulk_impl urls;
        print_json (success_results results)
    end
  else if bool_decide (command = Some "check") then check
  else print_json (error_dict ("Unknown command: " +:+ default "None" command)).

(** Lines 380-478: the body of the [try] of [main]; it raises when the
    JSON value is not an object and so has no [get]. *)
Definition main_body (input : string) : M (outcome unit) :=
  let input_data := Py.strip input in
  if negb (Py.truthy input_data) then
    _ ← print_json (error_dict "No input provided"); mret (Returned tt)
  else
    match json_loads input_data with
    | Raised e =>
        _ ← print_json (error_dict ("Invalid JSON: " +:+ e)); mret (Returned tt)
    | Returned (POther type_name) =>
        mret (Raised ("'" +:+ type_name +:+ "' object has no attribute 'get'"))
    | Returned (PObject command_data) =>
        _ ← dispatch command_data; mret (Returned tt)
    end.

(** Lines 378-482. *)
Definition main (input : string) : M (outcome unit) :=
  r ← main_body input;
  match r with
  | Returned _ => mret (Returned tt)
  | Raised e =>
      _ ← print_json (error_dict ("Critical error: " +:+ e)); mret (Returned tt)
  end.

(** Lines 484-499: the process; the result is its exit code. *)
Definition script (input : string) : M Z :=
  r ← main input;
  match r with
  | Returned _ => mret 0%Z
  | Raised e =>
      _ ← print_json (error_dict ("Unhandled exception: " +:+ e)); mret 1%Z
  end.

End Main.

(** ** A small instance of the libraries, to run the embedding on examples *)

Module Demo.

(** [find_sub needle s]: what comes before and after the first occurrence
    of [needle] in [s]. *)
Fixpoint find_sub (needle : string) (s : string) : option (string * string) :=
  if String.prefix needle s
  then Some (EmptyString, String.substring (String.length needle)
                            (String.length s - String.length needle) s)
  else
    match s with
    | EmptyString => None
    | String c s' =>
        match find_sub needle s' with
        | Some (before, after) => Some (String c before, after)
        | None => None
        end
    end.

(** The longest prefix without a character of [stops], and the rest. *)
Fixpoint break_at (stops : list ascii) (s : string) : string * string :=
  match s with
  | EmptyString => (EmptyString, EmptyString)
  | String c s' =>
      if existsb (Ascii.eqb c) stops then (EmptyString, s)
      else let '(a, b) := break_at stops s' in (String c a, b)
  end.

(** The split that [urlparse] makes of a URL of the common form
    [scheme://host/path?query#fragment]. *)
Definition urlparse_basic (url : string) : outcome ParseResult :=
  match find_sub "://" url with
  | Some (sch, rest) =>
      let '(host, rest) := break_at ["/"; "?"; "#"]%char rest in
      let '(pth, _) := break_at ["?"; "#"]%char rest in
      Returned {| scheme := sch; netloc := host; path := pth |}
  | None =>
      let '(pth, _) := break_at ["?"; "#"]%char url in
      Returned {| scheme := EmptyString; netloc := EmptyString; path := pth |}
  end.

(** Tags without their attributes, which is enough to tell trees apart. *)
Fixpoint render (n : node) : string :=
  match n with
  | NavigableString s => s
  | Tag nm _ _ cs =>
      "<" +:+ nm +:+ ">" +:+
      (fix inner (l : list node) : string :=
         match l with
         | [] => EmptyString
         | c :: l' => render c +:+ inner l'
         end) cs +:+
      "</" +:+ nm +:+ ">"
  end.

(** A parser that knows the pages of [pages] and takes any other body for
    a document with one text node. *)
Definition parse (pages : list (string * node)) (body : string) : outcome node :=
  match List.find (λ p, String.eqb (fst p) body) pages with
  | Some p => Returned (snd p)
  | None => Returned (Tag ROOT_TAG_NAME [] [] [NavigableString body])
  end.

Definition libraries (pages : list (string * node))
    (convert : string → outcome string) (loads : string → outcome Parsed)
  : Libraries :=
  {| CURL_CFFI_AVAILABLE := true;
     BS4_AVAILABLE := true;
     HTML2TEXT_AVAILABLE := true;
     urlparse := urlparse_basic;
     quote := id;
     BeautifulSoup := parse pages;
     tag_str := render;
     html2text_handle := convert;
     json_loads := loads |}.

(** [n] copies of [s], one after the other. *)
Fixpoint repeat_str (n : nat) (s : string) : string :=
  match n with
  | 0 => EmptyString
  | S n' => s +:+ repeat_str n' s
  end.

Definition ok (body : string) : outcome Response :=
  Returned {| status_error := None; content := body; text := body |}.

Definition world (net : nat → string → outcome Response)
    (sched : list Pool.choice) : World :=
  {| transport := net; issued := 0; searches := []; stdout := [];
     scheduler := sched |}.

End Demo.

(** ** The specification's reading, where it is stated on its own terms *)

Module Spec.
Section Spec.
Context `{Libraries}.

(** The first occurrence of every element, in the order of the list. *)
Fixpoint first_occurrences (l : list string) : list string :=
  match l with
  | [] => []
  | x :: l' => x :: filter (λ y, y ≠ x) (first_occurrences l')
  end.

(** What the filter keeps once it has seen [seen]. *)
Definition wanted (excluded : list string) (seen : gset string) (url : string) : Prop :=
  (url ∉ seen) ∧ is_domain_blocked url excluded = false.

Global Instance wanted_dec excluded seen url : Decision (wanted excluded seen url).
Proof. unfold wanted. apply _. Defined.

Definition site_query (query site : string) : string :=
  "site:" +:+ site +:+ " " +:+ query.

(** Section 4.4, steps 1 to 3: the queries and their limits. *)
Definition category_queries (query : string) (category : Category)
  : list (string * Z) :=
  if default false (enabled category)
  then (λ site, (site_query query site, 3%Z)) <$> take 2 (default [] (base_sites category))
  else [].

Definition queries (query : string) (config : Config) : list (string * Z) :=
  [(query, (total_limit config `div` 2)%Z)] ++
  (default [] (categories config) ≫= category_queries query) ++
  ((λ site, (site_query query site, 2%Z)) <$> take 3 (default [] (user_custom_sites config))).

(** The provider called once for every query of the list, in order. *)
Fixpoint call_all (calls : list (string * Z)) : M (list (list string)) :=
  match calls with
  | [] => mret []
  | (query, limit) :: rest =>
      urls ← search_duckduckgo query limit;
      more ← call_all rest;
      mret (urls :: more)
  end.

(** Section 4.3: the [href] of a result link, unless it is empty or an
    advertisement. *)
Definition organic_href (result : node) : option string :=
  match Bs4.get "href" result with
  | Some href =>
      if Py.truthy href && negb (is_ad_or_tracker_url href) then Some href else None
  | None => None
  end.

(** Section 4.2, step 7: the candidate of a selector, read as a CSS
    selector: a tag name, the [role] attribute, or a class. *)
Definition candidate (selector : string) (soup : node) : option node :=
  match selector with
  | String "[" _ => Bs4.select_one_attr "role" "main" soup
  | String "." cls => Bs4.select_one_class cls soup
  | _ => Bs4.find selector soup
  end.

Definition acceptable (m : node) : bool :=
  200 <? String.length (Bs4.get_text_strip m).

Definition select_main_content (soup : node) : node :=
  match List.find acceptable (omap (λ selector, candidate selector soup) selectors) with
  | Some m => m
  | None => default soup (Bs4.find "body" soup)
  end.




End Spec.
End Spec.

(** ** Example inputs *)

Module Inputs.

(** A page whose text sits in a [div] of class [content]. *)
Definition content_div : node :=
  Tag "div" [] ["content"] [NavigableString (Demo.repeat_str 300 "a")].

Definition content_body : node :=
  Tag "body" [] [] [content_div; Tag "p" [] [] [NavigableString "Leia mais"]].

Definition content_page : node :=
  Tag ROOT_TAG_NAME [] [] [Tag "html" [] [] [content_body]].

(** A tree with a tag whose name is [.entry], holding 200 characters; the
    parser builds no such tag from HTML, where a name starts with a
    letter. *)
Definition entry_tag : node :=
  Tag ".entry" [] [] [NavigableString (Demo.repeat_str 200 "e")].

Definition entry_tree : node :=
  Tag ROOT_TAG_NAME [] [] [Tag "body" [] [] [entry_tag; NavigableString "rodapé"]].

(** A results page with two organic links and one advertisement. *)
Definition result_link (href : string) : node :=
  Tag "a" [("href", href)] ["result__a"] [NavigableString "title"].

Definition results_page : node :=
  Tag ROOT_TAG_NAME [] []
    [Tag "div" [] ["results"]
       [result_link "https://example.org/a";
        result_link "https://ads.example.net/x";
        Tag "a" [("href", "https://duckduckgo.com/about")] [] [];
        result_link "https://example.org/b"]].

Definition results_body : string := Demo.repeat_str 120 "r".

(** An article of 150 characters, with a title and a navigation bar. *)
Definition article_text : string := Demo.repeat_str 150 "x".

Definition article_page : node :=
  Tag ROOT_TAG_NAME [] []
    [Tag "html" [] []
       [Tag "head" [] [] [Tag "title" [] [] [NavigableString "Um artigo"]];
        Tag "body" [] []
          [Tag "nav" [] [] [NavigableString "menu"];
           Tag "article" [] [] [NavigableString article_text]]]].

Definition article_body : string := Demo.repeat_str 200 "p".



Definition pages : list (string * node) :=
  [(results_body, results_page); (article_body, article_page)].

(** Three command lines, and a [json.loads] that knows them. *)
Definition jstr (s : string) : string := Py.dq +:+ s +:+ Py.dq.

Definition command_line (name : string) : string :=
  "{" +:+ jstr "command" +:+ ": " +:+ jstr name +:+ "}".

Definition no_fields (name : option string) : Command :=
  {| cmd_command := name; cmd_url := None; cmd_visible := None;
     cmd_query := None; cmd_limit := None; cmd_config := None;
     cmd_urls := None |}.

Definition loads (s : string) : outcome Parsed :=
  if String.eqb s (command_line "scrape") then
    Returned (PObject (no_fields (Some "scrape")))
  else if String.eqb s (command_line "dance") then
    Returned (PObject (no_fields (Some "dance")))
  else if String.eqb s (command_line "check") then
    Returned (PObject (no_fields (Some "check")))
  else if String.eqb s (jstr "not json") then Returned (POther "str")
  else Raised "Expecting value: line 1 column 1 (char 0)".

(** The converter of the example keeps the text it is given. *)
Definition libs : Libraries := Demo.libraries pages Returned loads.


(** A network where every search answers with [results_page]. *)
Definition search_net (n : nat) (url : string) : outcome Response :=
  Demo.ok results_body.

Definition config4 : Config :=
  {| total_sources_limit := Some 4%Z;
     categories := Some [ {| enabled := Some true;
                             base_sites := Some ["a.org"; "b.org"; "c.org"] |};
                          {| enabled := None; base_sites := Some ["d.org"] |} ];
     user_custom_sites := Some ["e.org"];
     excluded_domains := Some ["blocked.com"] |}.

End Inputs.

(** ** Further definitions *)

(** Lines 185 and 189: the names of the tags that are removed. *)
Definition removed_names : list string :=
  ["script"; "style"; "meta"; "link"; "noscript";
   "nav"; "header"; "footer"; "aside"; "ads"].

(** Line 221: the lines that the cleanup keeps. *)
Definition clean_lines (markdown_content : string) : list string :=
  List.filter Py.truthy (Py.strip <$> Py.split Py.newline markdown_content).

(** A string of white space. *)
Definition blank (s : string) : Prop :=
  Forall (λ c, Py.isspace c = true) (list_ascii_of_string s).

(** A string that does not start with white space. *)
Definition tight (s : string) : Prop :=
  match s with
  | EmptyString => True
  | String c _ => Py.isspace c = false
  end.

(** The characters of the lines, with one separator after each line. *)
Definition lines_weight (lines : list string) : nat :=
  sum_list ((λ l, S (String.length l)) <$> lines).

(** Line 251: what a search needs. *)
Definition search_ready `{Libraries} : bool := CURL_CFFI_AVAILABLE && BS4_AVAILABLE.

(** An answer whose type is success or error. *)
Definition answer_typed (data : dict) : Prop := is_success data || is_error data = true.

(** ** More instances and inputs *)

Module More.

(** [urlparse] with the check that urllib makes on the brackets of an IPv6
    host: a host with one bracket and not the other raises. *)
Definition urlparse_checked (url : string) : outcome ParseResult :=
  match Demo.urlparse_basic url with
  | Returned parsed =>
      if xorb (Py.contains "[" (netloc parsed)) (Py.contains "]" (netloc parsed))
      then Raised "Invalid IPv6 URL"
      else Returned parsed
  | Raised e => Raised e
  end.

(** A command line with a query. *)
Definition query_line (name query : string) : string :=
  "{" +:+ Inputs.jstr "command" +:+ ": " +:+ Inputs.jstr name +:+ ", " +:+
  Inputs.jstr "query" +:+ ": " +:+ Inputs.jstr query +:+ "}".

Definition with_query (name query : string) : Command :=
  {| cmd_command := Some name; cmd_url := None; cmd_visible := None;
     cmd_query := Some query; cmd_limit := None; cmd_config := None;
     cmd_urls := None |}.

Definition loads (s : string) : outcome Parsed :=
  if String.eqb s (query_line "search_duckduckgo" "x") then
    Returned (PObject (with_query "search_duckduckgo" "x"))
  else if String.eqb s (query_line "smart_search" "x") then
    Returned (PObject (with_query "smart_search" "x"))
  else if String.eqb s (query_line "search_and_scrape" "x") then
    Returned (PObject (with_query "search_and_scrape" "x"))
  else Inputs.loads s.

Definition libs : Libraries :=
  {| CURL_CFFI_AVAILABLE := true;
     BS4_AVAILABLE := true;
     HTML2TEXT_AVAILABLE := true;
     urlparse := urlparse_checked;
     quote := id;
     BeautifulSoup := Demo.parse Inputs.pages;
     tag_str := Demo.render;
     html2text_handle := Returned;
     json_loads := loads |}.

(** The same without curl_cffi. *)
Definition libs_offline : Libraries :=
  {| CURL_CFFI_AVAILABLE := false;
     BS4_AVAILABLE := true;
     HTML2TEXT_AVAILABLE := true;
     urlparse := urlparse_checked;
     quote := id;
     BeautifulSoup := Demo.parse Inputs.pages;
     tag_str := Demo.render;
     html2text_handle := Returned;
     json_loads := loads |}.

(** A network that answers a search with the results page and any other
    request with the article. *)
Definition net (n : nat) (url : string) : outcome Response :=
  if String.prefix "https://duckduckgo.com/" url
  then Demo.ok Inputs.results_body
  else Demo.ok Inputs.article_body.

Definition world : World := Demo.world net [Pool.Submit; Pool.Step 0].

Definition config0 : Config :=
  {| total_sources_limit := Some 0%Z; categories := None;
     user_custom_sites := None; excluded_domains := Some ["blocked.com"] |}.

Definition config_plain : Config :=
  {| total_sources_limit := Some 4%Z; categories := None;
     user_custom_sites := None; excluded_domains := None |}.

End More.

(** * Properties *)

Local Ltac unfold_M := unfold mbind, M_bind, mret, M_ret in *.

(** ** URL utilities *)

Section UrlExamples.
Existing Instance Inputs.libs.

Example extract_domain_host :
  extract_domain "https://sub.blocked.com/p?x=1#top" = "sub.blocked.com".
Proof. reflexivity. Qed.

Example extract_domain_not_a_url : extract_domain "not a url" = EmptyString.
Proof. reflexivity. Qed.

Example clean_url_drops_query :
  clean_url "http://x.com/a?ref=1" = "http://x.com/a".
Proof. reflexivity. Qed.

Example is_ad_or_tracker_ads :
  is_ad_or_tracker_url "https://ADS.example.com/x" = true.
Proof. reflexivity. Qed.

Example is_ad_or_tracker_article :
  is_ad_or_tracker_url "https://example.com/article" = false.
Proof. reflexivity. Qed.

Example is_domain_blocked_sub :
  is_domain_blocked "https://sub.blocked.com/p" ["blocked.com"] = true.
Proof. reflexivity. Qed.
End UrlExamples.

Lemma is_domain_blocked_nil `{Libraries} url : is_domain_blocked url [] = false.
Proof. reflexivity. Qed.

Lemma is_domain_blocked_false `{Libraries} url excluded :
  is_domain_blocked url excluded = false ↔
  ∀ excluded_domain, excluded_domain ∈ excluded →
                     Py.contains excluded_domain (extract_domain url) = false.
Proof.
  unfold is_domain_blocked. induction excluded as [|d l IH]; simpl.
  - split; [|done]. intros _ d Hd. by apply elem_of_nil in Hd.
  - rewrite orb_false_iff, IH. split.
    + intros [Hd Hl] d' [->|Hd']%elem_of_cons; auto.
    + intros Hall. split; [apply Hall; left|intros d' Hd'; apply Hall; by right].
Qed.

(** ** The search aggregator: the filter *)

Section FilterProofs.
Context `{Libraries}.

Lemma first_occurrences_elem x l : x ∈ Spec.first_occurrences l ↔ x ∈ l.
Proof.
  induction l as [|y l IH]; simpl; [done|].
  rewrite !elem_of_cons, list_elem_of_filter, IH.
  destruct (decide (x = y)); naive_solver.
Qed.

Lemma first_occurrences_NoDup l : NoDup (Spec.first_occurrences l).
Proof.
  induction l as [|y l IH]; simpl; [constructor|].
  constructor; [|by apply NoDup_filter].
  rewrite list_elem_of_filter. naive_solver.
Qed.

Lemma first_occurrences_sublist l : sublist (Spec.first_occurrences l) l.
Proof.
  induction l as [|y l IH]; simpl; [done|].
  apply sublist_skip. etrans; [apply sublist_filter|done].
Qed.

(** The loop, started with [filtered] kept and [seen] seen, returns the
    first [limit] of what it has and what it would still keep. *)
Lemma filter_loop_spec excluded limit all_urls filtered seen :
  (Z.of_nat (length filtered) < limit)%Z →
  filter_loop excluded limit all_urls filtered seen =
  take (Z.to_nat limit)
    (filtered ++ filter (Spec.wanted excluded seen) (Spec.first_occurrences all_urls)).
Proof.
  revert filtered seen.
  induction all_urls as [|url rest IH]; intros filtered seen Hlen; simpl.
  - rewrite app_nil_r, take_ge; [done|lia].
  - rewrite filter_cons, list_filter_filter.
    destruct (bool_decide (url ∉ seen) && negb (is_domain_blocked url excluded))
      eqn:Hkeep.
    + apply andb_true_iff in Hkeep as [Hseen Hblk].
      apply bool_decide_eq_true in Hseen. apply negb_true_iff in Hblk.
      rewrite decide_True by done.
      rewrite length_app; simpl.
      destruct (limit <=? _)%Z eqn:Hfull.
      * apply Z.leb_le in Hfull.
        rewrite (cons_middle url filtered (filter _ _)),
          (assoc_L (++) filtered [url] (filter _ _)).
        symmetry. apply take_app_length'. rewrite length_app; simpl. lia.
      * apply Z.leb_gt in Hfull.
        rewrite IH by (rewrite length_app; simpl; lia).
        rewrite <-(assoc_L (++)); simpl. do 3 f_equal.
        apply list_filter_iff. intros v. unfold Spec.wanted. set_solver.
    + assert (¬ Spec.wanted excluded seen url) as Hnot.
      { unfold Spec.wanted. intros [Hseen Hblk].
        apply andb_false_iff in Hkeep as [Hk|Hk].
        - by apply bool_decide_eq_false in Hk.
        - by rewrite Hblk in Hk. }
      rewrite decide_False by done.
      rewrite IH by done. do 2 f_equal.
      apply list_filter_iff. intros v.
      split; [|by intros [? ?]]. intros Hv. split; [done|]. by intros ->.
Qed.

Lemma filter_urls_spec config all_urls :
  (0 < total_limit config)%Z →
  filter_urls config all_urls =
  take (Z.to_nat (total_limit config))
    (filter (λ url, is_domain_blocked url (default [] (excluded_domains config)) = false)
       (Spec.first_occurrences all_urls)).
Proof.
  intros Hlimit. unfold filter_urls.
  rewrite filter_loop_spec by (simpl; lia). simpl. f_equal.
  apply list_filter_iff. intros url. unfold Spec.wanted. set_solver.
Qed.

(** C1.  With a positive [total_sources_limit], [smart_search_impl]
    returns at most that many URLs, no URL twice, none whose domain
    contains an excluded entry; the result is the first [limit] of the
    first occurrences of the URLs that are not blocked, in the order of the
    concatenated answers, and so a subsequence of them. *)
Theorem smart_search_impl_output query config w :
  (0 < total_limit config)%Z →
  let all_urls := (gather_urls query config w).1 in
  let urls := (smart_search_impl query config w).1 in
  let excluded := default [] (excluded_domains config) in
  (Z.of_nat (length urls) ≤ total_limit config)%Z ∧
  NoDup urls ∧
  (∀ url excluded_domain,
     url ∈ urls → excluded_domain ∈ excluded →
     Py.contains excluded_domain (extract_domain url) = false) ∧
  urls = take (Z.to_nat (total_limit config))
           (filter (λ url, is_domain_blocked url excluded = false)
              (Spec.first_occurrences all_urls)) ∧
  sublist urls all_urls.
Proof.
  intros Hlimit all_urls urls excluded.
  assert (urls = filter_urls config all_urls) as Hurls.
  { unfold urls, all_urls, smart_search_impl. unfold_M.
    by destruct (gather_urls query config w). }
  rewrite Hurls, filter_urls_spec by done. fold excluded.
  split; [rewrite length_take; lia|].
  split.
  { eapply sublist_NoDup; [|apply sublist_take].
    apply NoDup_filter, first_occurrences_NoDup. }
  split; [|split; [done|]].
  - intros url d Hurl Hd. apply subseteq_take in Hurl.
    apply list_elem_of_filter in Hurl as [Hblk _].
    by eapply is_domain_blocked_false.
  - etrans; [apply sublist_take|]. etrans; [apply sublist_filter|].
    apply first_occurrences_sublist.
Qed.
End FilterProofs.

(** ** The search aggregator: the queries *)

Section CallProofs.
Context `{Libraries}.

Lemma search_duckduckgo_searches query limit w :
  searches (search_duckduckgo query limit w).2 = searches w ++ [(query, limit)].
Proof.
  unfold search_duckduckgo. unfold_M. simpl.
  by destruct (negb CURL_CFFI_AVAILABLE || negb BS4_AVAILABLE).
Qed.

Lemma call_all_searches calls w :
  searches (Spec.call_all calls w).2 = searches w ++ calls.
Proof.
  revert w. induction calls as [|[query limit] rest IH]; intros w; simpl.
  - by rewrite app_nil_r.
  - unfold_M.
    pose proof (search_duckduckgo_searches query limit w) as Hs.
    destruct (search_duckduckgo query limit w) as [urls w1]; simpl in *.
    specialize (IH w1).
    destruct (Spec.call_all rest w1) as [more w2]; simpl in *.
    by rewrite IH, Hs, <-(assoc_L (++)).
Qed.

Lemma call_all_length calls w :
  length (Spec.call_all calls w).1 = length calls.
Proof.
  revert w. induction calls as [|[query limit] rest IH]; intros w; simpl; [done|].
  unfold_M. destruct (search_duckduckgo query limit w) as [urls w1].
  specialize (IH w1). destruct (Spec.call_all rest w1); simpl in *. by rewrite IH.
Qed.

Lemma call_all_app calls1 calls2 w :
  Spec.call_all (calls1 ++ calls2) w =
  let '(answers1, w1) := Spec.call_all calls1 w in
  let '(answers2, w2) := Spec.call_all calls2 w1 in
  (answers1 ++ answers2, w2).
Proof.
  revert w. induction calls1 as [|[query limit] rest IH]; intros w; simpl.
  - unfold_M. by destruct (Spec.call_all calls2 w).
  - unfold_M. destruct (search_duckduckgo query limit w) as [urls w1].
    rewrite IH. destruct (Spec.call_all rest w1) as [a1 w2].
    by destruct (Spec.call_all calls2 w2).
Qed.

Lemma search_sites_calls limit query sites all_urls w :
  search_sites limit query sites all_urls w =
  let '(answers, w') :=
    Spec.call_all ((λ site, (Spec.site_query query site, limit)) <$> sites) w in
  (all_urls ++ concat answers, w').
Proof.
  revert all_urls w. induction sites as [|site rest IH]; intros all_urls w; simpl.
  - unfold_M. by rewrite app_nil_r.
  - unfold_M. fold (Spec.site_query query site).
    destruct (search_duckduckgo _ limit w) as [urls w1].
    rewrite IH. destruct (Spec.call_all _ w1) as [more w2]; simpl.
    by rewrite (assoc_L (++)).
Qed.

Lemma search_categories_calls query cats all_urls w :
  search_categories query cats all_urls w =
  let '(answers, w') := Spec.call_all (cats ≫= Spec.category_queries query) w in
  (all_urls ++ concat answers, w').
Proof.
  revert all_urls w. induction cats as [|category rest IH]; intros all_urls w; simpl.
  - unfold_M. by rewrite app_nil_r.
  - unfold Spec.category_queries at 1.
    destruct (default false (enabled category)); simpl.
    + unfold_M. rewrite search_sites_calls, call_all_app.
      destruct (Spec.call_all _ w) as [a1 w1].
      rewrite IH. destruct (Spec.call_all _ w1) as [a2 w2].
      by rewrite concat_app, (assoc_L (++)).
    + apply IH.
Qed.

Lemma gather_urls_calls query config w :
  gather_urls query config w =
  let '(answers, w') := Spec.call_all (Spec.queries query config) w in
  (concat answers, w').
Proof.
  unfold gather_urls, Spec.queries. simpl. unfold_M.
  destruct (search_duckduckgo query _ w) as [general w1].
  rewrite search_categories_calls, call_all_app.
  destruct (Spec.call_all _ w1) as [a1 w2].
  rewrite search_sites_calls.
  destruct (Spec.call_all _ w2) as [a2 w3]; simpl.
  by rewrite concat_app, (assoc_L (++)).
Qed.

(** C2.  [smart_search_impl] calls the provider once for every query of
    [Spec.queries], in that order: the general query with half the limit,
    the first two sites of every enabled category with limit 3, the first
    three custom sites with limit 2.  The list that goes into the filter is
    the concatenation of the answers, in that order. *)
Theorem smart_search_impl_queries query config w :
  ∃ answers w',
    Spec.call_all (Spec.queries query config) w = (answers, w') ∧
    length answers = length (Spec.queries query config) ∧
    searches w' = searches w ++ Spec.queries query config ∧
    gather_urls query config w = (concat answers, w') ∧
    smart_search_impl query config w = (filter_urls config (concat answers), w').
Proof.
  pose proof (gather_urls_calls query config w) as Hg.
  pose proof (call_all_searches (Spec.queries query config) w) as Hs.
  pose proof (call_all_length (Spec.queries query config) w) as Hl.
  destruct (Spec.call_all (Spec.queries query config) w) as [answers w'] eqn:Hc.
  exists answers, w'. repeat split; try done.
  unfold smart_search_impl. unfold_M. by rewrite Hg.
Qed.

Example queries_config4 :
  Spec.queries "x" Inputs.config4 =
  [("x", 2%Z); ("site:a.org x", 3%Z); ("site:b.org x", 3%Z); ("site:e.org x", 2%Z)].
Proof. reflexivity. Qed.
End CallProofs.

(** ** The single-page fetcher *)

Section ScrapeProofs.
Context `{Libraries}.



Lemma is_error_error message : is_error (error_dict message) = true.
Proof. reflexivity. Qed.

(** Every early return of the fetcher is an error answer. *)
Lemma extract_error o d : extract o = inl d → ∃ message, d = error_dict message.
Proof.
  unfold extract.
  repeat match goal with
         | |- context [if ?b then _ else _] => destruct b
         | |- context [match ?x with _ => _ end] => destruct x
         end; intros [= <-]; eauto.
Qed.







End ScrapeProofs.

(** ** The search provider adapter *)

Section SearchProofs.
Context `{Libraries}.

(** The loop returns the first [limit] organic links, and the first one
    when [limit] is below 1: the length test comes after the append. *)
Lemma collect_hrefs_spec results limit urls :
  (Z.of_nat (length urls) < Z.max 1 limit)%Z →
  collect_hrefs results limit urls =
  take (Z.to_nat (Z.max 1 limit)) (urls ++ omap Spec.organic_href results).
Proof.
  revert urls. induction results as [|result rest IH]; intros urls Hlen; csimpl.
  - rewrite app_nil_r, take_ge; [done|lia].
  - unfold Spec.organic_href at 1.
    destruct (Bs4.get "href" result) as [href|]; [|by apply IH].
    destruct (Py.truthy href && negb (is_ad_or_tracker_url href)); [|by apply IH].
    rewrite length_app. simpl.
    rewrite (cons_middle href urls (omap _ _)), (assoc_L (++) urls [href] (omap _ _)).
    destruct (limit <=? _)%Z eqn:Hfull.
    + apply Z.leb_le in Hfull. symmetry. apply take_app_length'.
      rewrite length_app. simpl. lia.
    + apply Z.leb_gt in Hfull. apply IH. rewrite length_app. simpl. lia.
Qed.

(** X15: what the adapter returns for a page that was fetched and parsed. *)
Lemma search_results_page response soup limit :
  status_error response = None →
  BeautifulSoup (content response) = Returned soup →
  search_results (Returned response) limit =
  take (Z.to_nat (Z.max 1 limit)) (omap Spec.organic_href (result_links soup)).
Proof.
  intros Hstatus Hsoup. unfold search_results. rewrite Hstatus, Hsoup.
  by rewrite collect_hrefs_spec by (simpl; lia).
Qed.

(** With a limit of at least 1 the adapter returns at most [limit] URLs. *)
Lemma search_results_bound o limit :
  (1 ≤ limit)%Z → (Z.of_nat (length (search_results o limit)) ≤ limit)%Z.
Proof.
  intros Hlimit. unfold search_results.
  destruct o as [response|e]; [|simpl; lia].
  destruct (status_error response); [simpl; lia|].
  destruct (BeautifulSoup (content response)) as [soup|e]; [|simpl; lia].
  rewrite collect_hrefs_spec by (simpl; lia).
  rewrite length_take. lia.
Qed.

(** A failed request, an error status and a parse error give no URL. *)
Lemma search_results_failure o limit :
  match o with
  | Raised _ => True
  | Returned response =>
      is_Some (status_error response) ∨
      ∃ e, BeautifulSoup (content response) = Raised e
  end →
  search_results o limit = [].
Proof.
  unfold search_results. destruct o as [response|e]; [|done].
  intros [[e ->]|[e He]]; [done|].
  destruct (status_error response); [done|]. by rewrite He.
Qed.

(** No advertisement is returned. *)
Lemma search_results_no_ad o limit url :
  url ∈ search_results o limit → is_ad_or_tracker_url url = false.
Proof.
  unfold search_results.
  destruct o as [response|e]; [|by intros ?%elem_of_nil].
  destruct (status_error response); [by intros ?%elem_of_nil|].
  destruct (BeautifulSoup (content response)) as [soup|e]; [|by intros ?%elem_of_nil].
  rewrite collect_hrefs_spec by (simpl; lia).
  intros Hurl%subseteq_take. simpl in Hurl.
  apply list_elem_of_omap in Hurl as (result & _ & Hhref).
  unfold Spec.organic_href in Hhref.
  destruct (Bs4.get "href" result) as [href|]; [|done].
  destruct (Py.truthy href && negb (is_ad_or_tracker_url href)) eqn:Hkeep; [|done].
  simplify_eq. apply andb_true_iff in Hkeep as [_ Hkeep]. by apply negb_true_iff.
Qed.
End SearchProofs.

(** ** Runs on the example inputs *)

Section Evaluations.
Existing Instance Inputs.libs.

(** C3.  On a page whose text sits in a [div] of class [content], with no
    [article], [main] or [role] element, the selector [.content] of the
    specification picks the [div], which has 300 characters; the script
    looks for a tag called [.content], finds none, and takes the body. *)
Theorem select_main_content_class_selector :
  select_main_content Inputs.content_page = Inputs.content_body ∧
  Spec.select_main_content Inputs.content_page = Inputs.content_div ∧
  Spec.acceptable Inputs.content_div = true ∧
  Inputs.content_body ≠ Inputs.content_div.
Proof. repeat split; try (vm_compute; reflexivity). discriminate. Qed.

(** The two length tests of the selection do not meet at 200: a candidate
    of the last selector with exactly 200 characters is neither accepted
    by the loop nor replaced by the body.  The tree needs a tag called
    [.entry], which the parser does not build. *)
Lemma select_main_content_boundary :
  String.length (Bs4.get_text_strip Inputs.entry_tag) = 200 ∧
  select_main_content Inputs.entry_tree = Inputs.entry_tag.
Proof. split; vm_compute; reflexivity. Qed.


(** C6.  With limit 0, or a negative limit, the adapter returns one URL of
    a page with organic links, not none. *)
Theorem search_duckduckgo_limit_zero :
  (search_duckduckgo "x" 0 (Demo.world Inputs.search_net [])).1 =
    ["https://example.org/a"] ∧
  search_results (Demo.ok Inputs.results_body) 0 = ["https://example.org/a"] ∧
  search_results (Demo.ok Inputs.results_body) (-3) = ["https://example.org/a"].
Proof. repeat split; vm_compute; reflexivity. Qed.

Example search_duckduckgo_limit_five :
  (search_duckduckgo "x" 5 (Demo.world Inputs.search_net [])).1 =
    ["https://example.org/a"; "https://example.org/b"].
Proof. vm_compute. reflexivity. Qed.

(** The aggregator with [total_sources_limit = 1] asks for 0 general
    results and gets one. *)
Example smart_search_limit_one :
  (gather_urls "x" (Build_Config (Some 1%Z) None None None)
     (Demo.world Inputs.search_net [])).1 = ["https://example.org/a"].
Proof. vm_compute. reflexivity. Qed.
End Evaluations.
(** ** The thread pool *)

Module PoolFacts.
Section PoolFacts.
Import Pool.
Context {T R : Type} (work : T → R) (max_workers : nat).

Local Abbreviation state := (@state T R).
Local Abbreviation thread := (@thread T).
Local Abbreviation step := (step work max_workers).
Local Abbreviation exec := (exec work max_workers).

Implicit Types s : state.

Local Ltac push_fmap :=
  csimpl; repeat (rewrite fmap_app || rewrite fmap_cons);
  rewrite <-?Permutation_middle; done.

Lemma exec_app sched1 sched2 s :
  exec (sched1 ++ sched2) s = exec sched2 (exec sched1 s).
Proof. revert s. induction sched1 as [|c sched1 IH]; intros s; simpl; auto. Qed.

(** *** The bound on the worker threads *)

Lemma step_threads_bound c s s' :
  step c s = Some s' →
  length (threads s) ≤ max_workers → length (threads s') ≤ max_workers.
Proof.
  destruct c as [|i|k]; simpl.
  - unfold submit. destruct (to_submit s); [done|].
    destruct (0 <? idle_semaphore s); [by intros [= <-]|].
    destruct (length (threads s) <? max_workers) eqn:Hlt; intros [= <-]; simpl; [|done].
    apply Nat.ltb_lt in Hlt. rewrite length_app. simpl. lia.
  - unfold step_thread, take_item.
    destruct (threads s !! i) as [[| |t]|]; [| | |done];
      destruct (work_queue s); intros [= <-]; simpl; by rewrite length_insert.
  - unfold yield. destruct (to_submit s); [|done].
    destruct (finished s !! k); [|done]. by intros [= <-].
Qed.

Lemma exec_threads_bound sched s :
  length (threads s) ≤ max_workers → length (threads (exec sched s)) ≤ max_workers.
Proof.
  revert s. induction sched as [|c sched IH]; intros s Hs; simpl; [done|].
  apply IH. destruct (step c s) as [s'|] eqn:Hstep; simpl; [|done].
  by eapply step_threads_bound.
Qed.

Lemma in_flight_threads s : in_flight s ≤ length (threads s).
Proof.
  unfold in_flight, running. induction (threads s) as [|[| |t] l IH]; csimpl; lia.
Qed.

Lemma in_flight_bound tasks sched :
  in_flight (exec sched (init tasks)) ≤ max_workers.
Proof.
  etrans; [apply in_flight_threads|].
  apply exec_threads_bound. simpl. lia.
Qed.

(** *** No result is lost and none is made up *)

Lemma running_insert (l : list thread) i th th' :
  l !! i = Some th →
  option_list (item_of th) ++ omap item_of (<[i := th']> l) ≡ₚ
  option_list (item_of th') ++ omap item_of l.
Proof.
  revert i. induction l as [|a l IH]; intros [|i] Hi; simplify_eq/=.
  - destruct th, th'; simpl; try done. apply Permutation_swap.
  - specialize (IH _ Hi).
    destruct a; simpl; [done|done|].
    rewrite <-!Permutation_middle. by f_equiv.
Qed.

Lemma step_results c s s' : step c s = Some s' → results_of work s' ≡ₚ results_of work s.
Proof.
  unfold results_of. destruct c as [|i|k]; simpl.
  - unfold submit. destruct (to_submit s) as [|t ts] eqn:Hts; [done|].
    assert (∀ th : list thread, omap item_of (th ++ [Free]) = omap item_of th) as Hfree.
    { intros th. rewrite omap_app. simpl. by rewrite app_nil_r. }
    destruct (0 <? idle_semaphore s); [|destruct (length (threads s) <? max_workers)];
      intros [= <-]; unfold running; simpl; rewrite ?Hfree;
      by rewrite <-!(assoc_L (++)).
  - unfold step_thread, take_item.
    destruct (threads s !! i) as [th|] eqn:Hi; [|done].
    destruct th as [| |t].
    + destruct (work_queue s) as [|t q] eqn:Hq; intros [= <-]; unfold running; simpl.
      * pose proof (running_insert _ _ _ Waiting Hi) as Hp. simpl in Hp. by rewrite Hp.
      * pose proof (running_insert _ _ _ (Busy t) Hi) as Hp. simpl in Hp.
        rewrite Hp. do 2 f_equiv. push_fmap.
    + destruct (work_queue s) as [|t q] eqn:Hq; intros [= <-]; unfold running; simpl.
      pose proof (running_insert _ _ _ (Busy t) Hi) as Hp. simpl in Hp.
      rewrite Hp. do 2 f_equiv. push_fmap.
    + intros [= <-]; unfold running; simpl.
      pose proof (running_insert _ _ _ Free Hi) as Hp. simpl in Hp.
      rewrite <-Hp. f_equiv. rewrite <-(assoc_L (++)). f_equiv. push_fmap.
  - unfold yield. destruct (to_submit s) eqn:Hts; [|done].
    destruct (finished s !! k) as [r|] eqn:Hk; [|done].
    intros [= <-]; unfold running; simpl.
    rewrite <-(assoc_L (++)). f_equiv. simpl.
    by rewrite (delete_Permutation (finished s) k r Hk) at 2.
Qed.

Lemma exec_results sched s : results_of work (exec sched s) ≡ₚ results_of work s.
Proof.
  revert s. induction sched as [|c sched IH]; intros s; simpl; [done|].
  rewrite IH. destruct (step c s) as [s'|] eqn:Hstep; simpl; [|done].
  by eapply step_results.
Qed.

Lemma terminal_results s : terminal s = true → results_of work s = yielded s.
Proof.
  unfold terminal, results_of.
  destruct (to_submit s), (work_queue s), (running s), (finished s); try done.
  intros _. simpl. by rewrite app_nil_r.
Qed.

Lemma terminal_yielded tasks sched :
  terminal (exec sched (init tasks)) = true →
  yielded (exec sched (init tasks)) ≡ₚ work <$> tasks.
Proof.
  intros Hterm. rewrite <-(terminal_results _ Hterm), exec_results.
  unfold results_of, running. simpl. done.
Qed.

(** *** Running to the end *)

Lemma submit_all_to_submit s : to_submit (submit_all work max_workers s) = [].
Proof.
  unfold submit_all.
  remember (length (to_submit s)) as n eqn:Hn. revert s Hn.
  induction n as [|n IH]; intros s Hn; simpl.
  - by destruct (to_submit s).
  - unfold submit. destruct (to_submit s) as [|t ts] eqn:Hts; [done|].
    simpl in Hn.
    destruct (0 <? idle_semaphore s); [|destruct (length (threads s) <? max_workers)];
      simpl; apply IH; simpl; lia.
Qed.

Lemma weight_insert (l : list thread) i th th' :
  l !! i = Some th →
  sum_list (weight <$> <[i := th']> l) + weight th = sum_list (weight <$> l) + weight th'.
Proof.
  revert i. induction l as [|a l IH]; intros [|i] Hi; simplify_eq/=; [lia|].
  specialize (IH _ Hi). lia.
Qed.

Lemma step_thread_moves i s th :
  threads s !! i = Some th → can_move s th →
  ∃ s', step_thread work i s = Some s' ∧ moves_left s' < moves_left s ∧
        to_submit s' = to_submit s.
Proof.
  intros Hi Hmove. unfold step_thread, take_item, moves_left. rewrite Hi.
  unfold can_move in Hmove.
  destruct th as [| |t]; destruct (work_queue s) as [|t' q] eqn:Hq;
    try done; eexists; (split; [done|]); simpl; (split; [|done]).
  - pose proof (weight_insert _ _ _ Waiting Hi) as Hw. simpl in Hw. lia.
  - pose proof (weight_insert _ _ _ (Busy t') Hi) as Hw. simpl in Hw. lia.
  - pose proof (weight_insert _ _ _ (Busy t') Hi) as Hw. simpl in Hw. lia.
  - pose proof (weight_insert _ _ _ Free Hi) as Hw. simpl in Hw. lia.
  - pose proof (weight_insert _ _ _ Free Hi) as Hw. simpl in Hw. lia.
Qed.

Lemma first_movable_Some s i :
  first_movable s = Some i → ∃ th, threads s !! i = Some th ∧ can_move s th.
Proof.
  unfold first_movable. intros Hf.
  destruct (list_find _ _) as [[j th]|] eqn:Hfind; simplify_eq/=.
  apply list_find_Some in Hfind as (? & ? & _). eauto.
Qed.

Lemma run_threads_quiet fuel s :
  moves_left s ≤ fuel → first_movable (run_threads work max_workers fuel s) = None.
Proof.
  revert s. induction fuel as [|fuel IH]; intros s Hfuel; simpl.
  - destruct (first_movable s) as [i|] eqn:Hf; [|done].
    apply first_movable_Some in Hf as (th & Hi & Hmove).
    destruct (step_thread_moves _ _ _ Hi Hmove) as (s' & _ & Hlt & _). lia.
  - destruct (first_movable s) as [i|] eqn:Hf; [|done].
    apply first_movable_Some in Hf as (th & Hi & Hmove).
    destruct (step_thread_moves _ _ _ Hi Hmove) as (s' & -> & Hlt & _). simpl.
    apply IH. lia.
Qed.

Lemma run_threads_exec fuel s :
  ∃ sched, run_threads work max_workers fuel s = exec sched s ∧
           to_submit (exec sched s) = to_submit s.
Proof.
  revert s. induction fuel as [|fuel IH]; intros s; simpl.
  - by exists [].
  - destruct (first_movable s) as [i|] eqn:Hf; [|by exists []].
    apply first_movable_Some in Hf as (th & Hi & Hmove).
    destruct (step_thread_moves _ _ _ Hi Hmove) as (s' & Hs' & _ & Hsub).
    destruct (IH s') as (sched & Hrun & Hkeep).
    exists (Step i :: sched). simpl. rewrite Hs'. simpl.
    split; [done|]. by rewrite Hkeep.
Qed.

Lemma yield_all_spec s :
  to_submit s = [] →
  let s' := yield_all work max_workers s in
  to_submit s' = [] ∧ work_queue s' = work_queue s ∧ threads s' = threads s ∧
  finished s' = [].
Proof.
  unfold yield_all. remember (length (finished s)) as n eqn:Hn. revert s Hn.
  induction n as [|n IH]; intros s Hn Hsub; simpl.
  - by destruct (finished s).
  - unfold yield. rewrite Hsub. destruct (finished s) as [|r rs] eqn:Hfin; [done|].
    simpl. simpl in Hn.
    edestruct (IH {| to_submit := []; work_queue := work_queue s;
                     threads := threads s; idle_semaphore := idle_semaphore s;
                     finished := rs; yielded := yielded s ++ [r] |}) as (?&?&?&?);
      simpl; [lia|done|]. done.
Qed.

Lemma complete_exec s : ∃ sched, complete work max_workers s = exec sched s.
Proof.
  unfold complete, submit_all, yield_all.
  set (s1 := exec (replicate (length (to_submit s)) Submit) s).
  destruct (run_threads_exec (moves_left s1) s1) as (sched & -> & _).
  exists (replicate (length (to_submit s)) Submit ++ sched ++
          replicate (length (finished (exec sched s1))) (Yield 0)).
  rewrite (exec_app (replicate _ Submit)). fold s1. by rewrite (exec_app sched).
Qed.

(** *** With at least one worker, running to the end gets there *)

Hypothesis max_workers_pos : 0 < max_workers.

Lemma step_served c s s' : step c s = Some s' → served s → served s'.
Proof.
  unfold served. destruct c as [|i|k]; simpl.
  - unfold submit. destruct (to_submit s); [done|].
    destruct (0 <? idle_semaphore s) eqn:Hsem.
    { apply Nat.ltb_lt in Hsem. intros [= <-] Hs _; simpl. apply Hs. by right. }
    destruct (length (threads s) <? max_workers) eqn:Hlt; intros [= <-] Hs _; simpl.
    + by destruct (threads s).
    + apply Nat.ltb_ge in Hlt. destruct (threads s); simpl in *; [lia|done].
  - unfold step_thread, take_item.
    destruct (threads s !! i) as [th|] eqn:Hi; [|done].
    assert (∀ th', <[i:=th']> (threads s) ≠ []) as Hne.
    { intros th' Hnil. apply (f_equal length) in Hnil.
      rewrite length_insert in Hnil. apply lookup_lt_Some in Hi. simpl in Hnil. lia. }
    destruct th; [| |]; destruct (work_queue s); intros [= <-] _ _; simpl; apply Hne.
  - unfold yield. destruct (to_submit s); [|done].
    destruct (finished s !! k); [|done]. by intros [= <-].
Qed.

Lemma exec_served sched s : served s → served (exec sched s).
Proof.
  revert s. induction sched as [|c sched IH]; intros s Hs; simpl; [done|].
  apply IH. destruct (step c s) as [s'|] eqn:Hstep; simpl; [|done].
  by eapply step_served.
Qed.

Lemma quiet_idle s :
  served s → first_movable s = None → work_queue s = [] ∧ running s = [].
Proof.
  unfold first_movable, served, running. intros Hserved Hf.
  destruct (list_find _ _) as [[j th]|] eqn:Hfind; [done|].
  apply list_find_None in Hfind.
  assert (work_queue s = []) as Hq.
  { destruct (threads s) as [|th l] eqn:Hth.
    - destruct (work_queue s); [done|]. destruct Hserved; [by left|done].
    - apply Forall_cons in Hfind as [Hth' _]. unfold can_move in Hth'.
      destruct th; destruct (work_queue s); simpl in *; done || by destruct Hth'. }
  split; [done|].
  assert (Forall (λ th, item_of th = None) (threads s)) as Hidle.
  { eapply Forall_impl; [exact Hfind|]. intros th Hth. unfold can_move in Hth.
    rewrite Hq in Hth. destruct th; simpl in *; done || by destruct Hth. }
  clear -Hidle. induction Hidle as [|th l Hth _ IH]; [done|]. csimpl. by rewrite Hth.
Qed.

Lemma complete_terminal s : served s → terminal (complete work max_workers s) = true.
Proof.
  intros Hserved. unfold complete.
  pose proof (submit_all_to_submit s) as Hsub.
  assert (served (submit_all work max_workers s)) as Hs1 by by apply exec_served.
  set (s1 := submit_all work max_workers s) in *.
  pose proof (run_threads_quiet (moves_left s1) s1 (le_n _)) as Hquiet.
  destruct (run_threads_exec (moves_left s1) s1) as (sched & Hrun & Hkeep).
  rewrite Hrun in *.
  assert (served (exec sched s1)) as Hs2 by (apply exec_served; auto).
  destruct (quiet_idle _ Hs2 Hquiet) as [Hq Hr].
  destruct (yield_all_spec (exec sched s1)) as (H1 & H2 & H3 & H4); [congruence|].
  unfold terminal, running in *. rewrite H1, H2, H3, H4, Hq, Hr. done.
Qed.

Lemma complete_yielded tasks sched :
  yielded (complete work max_workers (exec sched (init tasks))) ≡ₚ work <$> tasks.
Proof.
  assert (served (exec sched (init tasks))) as Hserved.
  { apply exec_served. unfold served. simpl. intros [?|?]; [done|lia]. }
  pose proof (complete_terminal _ Hserved) as Hterm.
  destruct (complete_exec (exec sched (init tasks))) as [sched' Hc].
  rewrite Hc, <-exec_app in *. by apply terminal_yielded.
Qed.
End PoolFacts.
End PoolFacts.

(** ** The bulk fetch orchestrator *)

Section BulkProofs.
Context `{Libraries}.

Lemma max_workers_pos : 0 < MAX_WORKERS.
Proof. unfold MAX_WORKERS. lia. Qed.

Lemma bulk_work_tasks fetch urls :
  bulk_work fetch <$> bulk_tasks urls =
  imap (λ i url, scrape_with_logging url (fetch i url)) urls.
Proof. unfold bulk_tasks. by rewrite fmap_imap. Qed.

(** Running to the end is one more stretch of scheduling. *)
Lemma bulk_complete fetch urls sched :
  ∃ sched',
    Pool.complete (bulk_work fetch) MAX_WORKERS (bulk_state fetch urls sched) =
    bulk_state fetch urls (sched ++ sched').
Proof.
  unfold bulk_state.
  destruct (PoolFacts.complete_exec (bulk_work fetch) MAX_WORKERS
              (Pool.exec (bulk_work fetch) MAX_WORKERS sched
                 (Pool.init (bulk_tasks urls)))) as [sched' Hc].
  exists sched'. by rewrite Hc, PoolFacts.exec_app.
Qed.

(** The block of the bulk fetch ends with every future done. *)
Lemma bulk_terminal fetch urls sched :
  Pool.terminal
    (Pool.complete (bulk_work fetch) MAX_WORKERS (bulk_state fetch urls sched)) = true.
Proof.
  apply PoolFacts.complete_terminal; [apply max_workers_pos|].
  apply PoolFacts.exec_served; [apply max_workers_pos|].
  unfold Pool.served. simpl. intros [?|?]; [done|lia].
Qed.

(** C9.  Whatever the scheduler chooses, and however many URLs there are,
    at most five calls of [scrape_url] are running in any state of the
    pool, the states of the final stretch included. *)
Theorem bulk_in_flight_bound fetch urls sched :
  Pool.in_flight (bulk_state fetch urls sched) ≤ 5 ∧
  ∃ sched',
    Pool.complete (bulk_work fetch) MAX_WORKERS (bulk_state fetch urls sched) =
      bulk_state fetch urls (sched ++ sched') ∧
    ∀ n, Pool.in_flight (bulk_state fetch urls (take n (sched ++ sched'))) ≤ 5.
Proof.
  split; [apply PoolFacts.in_flight_bound|].
  destruct (bulk_complete fetch urls sched) as [sched' Hc].
  exists sched'. split; [done|]. intros n. apply PoolFacts.in_flight_bound.
Qed.

(** C7.  The bulk fetch returns the successes among the results of its
    work items, each once and nothing else, in some order; a call of
    [scrape_url] that raises counts as an error answer for its URL. *)
Theorem bulk_results_successes fetch urls sched :
  bulk_results fetch urls sched ≡ₚ
    filter (λ result, is_success result)
      (imap (λ i url, scrape_with_logging url (fetch i url)) urls) ∧
  (∀ url e,
     is_success (scrape_with_logging url (Raised e)) = false ∧
     Py.get "url" (scrape_with_logging url (Raised e)) = Some (VStr url)) ∧
  (∀ w,
     (scrape_urls_bulk_impl urls w).1 ≡ₚ
       filter (λ result, is_success result)
         (imap (λ i url, scrape_url url (transport w (issued w + i) url)) urls)).
Proof.
  assert (∀ fetch' sched',
    bulk_results fetch' urls sched' ≡ₚ
      filter (λ result, is_success result)
        (imap (λ i url, scrape_with_logging url (fetch' i url)) urls)) as Hall.
  { intros fetch' sched'. unfold bulk_results, bulk_state.
    rewrite <-bulk_work_tasks.
    by rewrite (PoolFacts.complete_yielded _ _ max_workers_pos). }
  split; [apply Hall|]. split; [done|].
  intros w. unfold scrape_urls_bulk_impl. simpl. apply Hall.
Qed.
End BulkProofs.

(** ** The command dispatcher *)

Section MainProofs.
Context `{Libraries}.

Lemma truthy_strip input :
  Py.strip input ≠ EmptyString → Py.truthy (Py.strip input) = true.
Proof. by destruct (Py.strip input). Qed.


(** X25: a JSON value that is not an object is answered with an error as well. *)
Lemma script_not_an_object input type_name w :
  Py.strip input ≠ EmptyString →
  json_loads (Py.strip input) = Returned (POther type_name) →
  script input w =
    (0%Z, printed (error_dict ("Critical error: '" +:+ type_name
                                 +:+ "' object has no attribute 'get'")) w).
Proof.
  intros Hne Hloads. unfold script, main, main_body. unfold_M.
  by rewrite (truthy_strip _ Hne), Hloads.
Qed.

(** The script never ends with another exit code than 0. *)
Lemma script_exit_code input w : (script input w).1 = 0%Z.
Proof.
  unfold script, main. unfold_M.
  destruct (main_body input w) as [[[]|e] w']; [done|].
  by destruct (print_json _ w').
Qed.
End MainProofs.

(** ** The theorems at work on the example inputs *)

Lemma smart_search_impl_output_witness :
  let w := Demo.world Inputs.search_net [] in
  let all_urls := (gather_urls (H := Inputs.libs) "x" Inputs.config4 w).1 in
  let urls := (smart_search_impl (H := Inputs.libs) "x" Inputs.config4 w).1 in
  let excluded := default [] (excluded_domains Inputs.config4) in
  (Z.of_nat (length urls) ≤ total_limit Inputs.config4)%Z ∧
  NoDup urls ∧
  (∀ url excluded_domain,
     url ∈ urls → excluded_domain ∈ excluded →
     Py.contains excluded_domain (extract_domain (H := Inputs.libs) url) = false) ∧
  urls = take (Z.to_nat (total_limit Inputs.config4))
           (filter (λ url, is_domain_blocked (H := Inputs.libs) url excluded = false)
              (Spec.first_occurrences all_urls)) ∧
  sublist urls all_urls.
Proof.
  apply (smart_search_impl_output (H := Inputs.libs) "x" Inputs.config4
           (Demo.world Inputs.search_net [])).
  reflexivity.
Defined.





Example script_check :
  script (H := Inputs.libs) (Inputs.command_line "check")
    (Demo.world Inputs.search_net []) =
  (0%Z, printed [("type", VStr "success");
                 ("message", VStr "All dependencies available")]
          (Demo.world Inputs.search_net [])).
Proof. vm_compute. reflexivity. Qed.

Example script_json_string :
  (script (H := Inputs.libs) (Inputs.jstr "not json")
     (Demo.world Inputs.search_net [])).1 = 0%Z ∧
  stdout (script (H := Inputs.libs) (Inputs.jstr "not json")
            (Demo.world Inputs.search_net [])).2 =
    [VDict (error_dict "Critical error: 'str' object has no attribute 'get'")].
Proof. split; vm_compute; reflexivity. Qed.

(** The bulk fetch on twelve URLs of which every third fails, under a
    scheduler that submits seven of them and then lets six workers move:
    five fetches are running, and the sixth worker does not exist. *)
Example bulk_results_twelve :
  let fetch (i : nat) (url : string) : outcome dict :=
    if i `mod` 3 =? 0 then Raised "boom"
    else Returned [("type", VStr "success"); ("url", VStr url)] in
  let urls := (λ i : nat, pretty i) <$> seq 0 12 in
  let sched := replicate 7 Pool.Submit ++ (Pool.Step <$> seq 0 6) in
  length (bulk_results fetch urls sched) = 8 ∧
  Pool.in_flight (bulk_state fetch urls sched) = 5 ∧
  length (Pool.work_queue (bulk_state fetch urls sched)) = 2.
Proof. repeat split; vm_compute; reflexivity. Qed.

(** * Further properties *)

Section PyFacts.

Lemma append_nil_r s : s +:+ EmptyString = s.
Proof. induction s as [|c s IH]; [done|]. unfold String.app in *. simpl. by rewrite IH. Qed.

Lemma append_assoc a b c : (a +:+ b) +:+ c = a +:+ (b +:+ c).
Proof.
  induction a as [|x a IH]; [done|]. unfold String.app in *. simpl. by rewrite IH.
Qed.

Lemma append_cons x a b : String x a +:+ b = String x (a +:+ b).
Proof. reflexivity. Qed.

Lemma prefix_spec a s : String.prefix a s = true ↔ ∃ t, s = a +:+ t.
Proof.
  revert s. induction a as [|x a IH]; intros [|y s]; simpl.
  - split; [|done]. intros _. by exists EmptyString.
  - split; [|done]. intros _. by exists (String y s).
  - split; [done|]. by intros [t Ht].
  - destruct (ascii_dec x y) as [->|Hne].
    + rewrite IH. split; intros [t Ht]; exists t.
      * by rewrite append_cons, Ht.
      * rewrite append_cons in Ht. by simplify_eq.
    + split; [done|]. intros [t Ht]. rewrite append_cons in Ht. by simplify_eq.
Qed.

Lemma contains_nil needle :
  Py.contains needle EmptyString = String.prefix needle EmptyString.
Proof. unfold Py.contains. by rewrite orb_false_r. Qed.

Lemma contains_cons needle c hay :
  Py.contains needle (String c hay) =
  String.prefix needle (String c hay) || Py.contains needle hay.
Proof. reflexivity. Qed.

Lemma contains_spec needle hay :
  Py.contains needle hay = true ↔ ∃ pre post, hay = pre +:+ needle +:+ post.
Proof.
  induction hay as [|c hay IH].
  - rewrite contains_nil, prefix_spec. split.
    + intros [t Ht]. by exists EmptyString, t.
    + intros ([|x pre] & post & Hh); [by exists post|]. by rewrite append_cons in Hh.
  - rewrite contains_cons, orb_true_iff, prefix_spec, IH. split.
    + intros [[t Ht]|(pre & post & Hh)].
      * by exists EmptyString, t.
      * exists (String c pre), post. by rewrite append_cons, Hh.
    + intros ([|x pre] & post & Hh).
      * left. by exists post.
      * right. rewrite append_cons in Hh. simplify_eq. by exists pre, post.
Qed.

Lemma contains_trans a b c :
  Py.contains a b = true → Py.contains b c = true → Py.contains a c = true.
Proof.
  rewrite !contains_spec. intros (p1 & q1 & ->) (p2 & q2 & ->).
  exists (p2 +:+ p1), (q1 +:+ q2). by rewrite !append_assoc.
Qed.

Lemma contains_empty_hay needle :
  Py.contains needle EmptyString = true ↔ needle = EmptyString.
Proof. rewrite contains_nil. by destruct needle. Qed.

Lemma contains_empty_needle hay : Py.contains EmptyString hay = true.
Proof. by destruct hay. Qed.

Lemma lower_char_idemp c : Py.lower_char (Py.lower_char c) = Py.lower_char c.
Proof. by destruct c as [[] [] [] [] [] [] [] []]. Qed.

Lemma lower_idemp s : Py.lower (Py.lower s) = Py.lower s.
Proof. induction s as [|c s IH]; simpl; [done|]. by rewrite lower_char_idemp, IH. Qed.

End PyFacts.

Section TreeFacts.

Lemma node_nested_ind (P : node → Prop) :
  (∀ s, P (NavigableString s)) →
  (∀ nm attrs cls cs, Forall P cs → P (Tag nm attrs cls cs)) →
  ∀ n, P n.
Proof.
  intros Hs Ht. fix IH 1. intros [s|nm attrs cls cs]; [apply Hs|].
  apply Ht. induction cs as [|c cs IHcs]; constructor; [apply IH|apply IHcs].
Qed.

Lemma descendants_Tag nm attrs cls cs :
  Bs4.descendants (Tag nm attrs cls cs) = cs ≫= (λ c, c :: Bs4.descendants c).
Proof. simpl. induction cs as [|c cs IH]; csimpl; [done|]. by rewrite IH. Qed.

Lemma decompose_all_Tag names nm attrs cls cs :
  Bs4.decompose_all names (Tag nm attrs cls cs) =
  Tag nm attrs cls
    (Bs4.decompose_all names <$> List.filter (λ c, negb (Bs4.is_named names c)) cs).
Proof.
  simpl. f_equal. induction cs as [|c cs IH]; csimpl; [done|].
  destruct (Bs4.is_named names c); simpl; by rewrite IH.
Qed.

Lemma decompose_all_name names n :
  Bs4.tag_name (Bs4.decompose_all names n) = Bs4.tag_name n.
Proof. by destruct n. Qed.

Lemma is_named_decompose_all names names' n :
  Bs4.is_named names' (Bs4.decompose_all names n) = Bs4.is_named names' n.
Proof. unfold Bs4.is_named. by rewrite decompose_all_name. Qed.

Lemma elem_of_List_filter {A} (p : A → bool) l x :
  x ∈ List.filter p l ↔ x ∈ l ∧ p x = true.
Proof. rewrite !list_elem_of_In. apply filter_In. Qed.

(** After the removal no tag of the list is left below the root. *)
Lemma decompose_all_clean names n d :
  d ∈ Bs4.descendants (Bs4.decompose_all names n) → Bs4.is_named names d = false.
Proof.
  revert d. induction n as [s|nm attrs cls cs IH] using node_nested_ind; intros d.
  - by intros ?%elem_of_nil.
  - rewrite decompose_all_Tag, descendants_Tag.
    intros (c' & Hd & Hc')%list_elem_of_bind.
    apply list_elem_of_fmap in Hc' as (c & -> & Hc).
    apply elem_of_List_filter in Hc as [Hc Hname].
    apply elem_of_cons in Hd as [->|Hd].
    + rewrite is_named_decompose_all. by apply negb_true_iff.
    + rewrite Forall_forall in IH. by eapply IH.
Qed.

(** What is left after the removal comes from the tree before it. *)
Lemma decompose_all_from names n d' :
  d' ∈ Bs4.descendants (Bs4.decompose_all names n) →
  ∃ d, d ∈ Bs4.descendants n ∧ d' = Bs4.decompose_all names d.
Proof.
  revert d'. induction n as [s|nm attrs cls cs IH] using node_nested_ind; intros d'.
  - by intros ?%elem_of_nil.
  - rewrite decompose_all_Tag, !descendants_Tag.
    intros (c' & Hd & Hc')%list_elem_of_bind.
    apply list_elem_of_fmap in Hc' as (c & -> & Hc).
    apply elem_of_List_filter in Hc as [Hc Hname].
    apply elem_of_cons in Hd as [->|Hd].
    + exists c. split; [|done]. apply list_elem_of_bind. exists c. split; [left|done].
    + rewrite Forall_forall in IH. destruct (IH c Hc d' Hd) as (d & Hd' & ->).
      exists d. split; [|done]. apply list_elem_of_bind. exists c.
      split; [by right|done].
Qed.

Lemma existsb_app_names (nm : string) (l1 l2 : list string) :
  existsb (String.eqb nm) (l1 ++ l2) =
  existsb (String.eqb nm) l1 || existsb (String.eqb nm) l2.
Proof. apply existsb_app. Qed.

Lemma is_named_app l1 l2 n :
  Bs4.is_named (l1 ++ l2) n = Bs4.is_named l1 n || Bs4.is_named l2 n.
Proof. unfold Bs4.is_named. destruct (Bs4.tag_name n); [apply existsb_app|done]. Qed.

(** Two removals in a row are one removal of both lists. *)
Lemma decompose_all_app l1 l2 n :
  Bs4.decompose_all l2 (Bs4.decompose_all l1 n) = Bs4.decompose_all (l1 ++ l2) n.
Proof.
  induction n as [s|nm attrs cls cs IH] using node_nested_ind; [done|].
  rewrite !decompose_all_Tag. f_equal.
  induction IH as [|c cs Hc _ IHcs]; [done|].
  cbn [List.filter]. rewrite is_named_app.
  destruct (Bs4.is_named l1 c) eqn:H1; cbn [negb orb]; [done|].
  rewrite fmap_cons. cbn [List.filter]. rewrite is_named_decompose_all.
  destruct (Bs4.is_named l2 c) eqn:H2; cbn [negb]; [done|].
  by rewrite !fmap_cons, Hc, IHcs.
Qed.

Lemma descendants_trans n m d :
  m ∈ Bs4.descendants n → d ∈ Bs4.descendants m → d ∈ Bs4.descendants n.
Proof.
  induction n as [s|nm attrs cls cs IH] using node_nested_ind.
  - by intros ?%elem_of_nil.
  - rewrite descendants_Tag. intros (c & Hm & Hc)%list_elem_of_bind Hd.
    apply list_elem_of_bind. exists c. split; [|done]. right.
    apply elem_of_cons in Hm as [->|Hm]; [done|].
    rewrite Forall_forall in IH. by apply (IH c Hc).
Qed.

End TreeFacts.

Section UrlFacts.
Context `{Libraries}.

(** X1: the test does not look at the case of the URL. *)
Theorem is_ad_or_tracker_url_case url :
  is_ad_or_tracker_url (Py.lower url) = is_ad_or_tracker_url url.
Proof. unfold is_ad_or_tracker_url. by rewrite lower_idemp. Qed.

(** X2: the pattern [google-analytics] adds nothing to [analytics]: six of the
    seven patterns decide the answer. *)
Theorem is_ad_or_tracker_url_six url :
  is_ad_or_tracker_url url =
  existsb (λ tracker, Py.contains tracker (Py.lower url))
    ["analytics"; "doubleclick"; "facebook.com/tr"; "ads."; "banner"; "tracking"].
Proof.
  unfold is_ad_or_tracker_url, trackers. cbn [existsb].
  destruct (Py.contains "google-analytics" (Py.lower url)) eqn:Hga; [|done].
  rewrite (contains_trans "analytics" "google-analytics" _ eq_refl Hga). done.
Qed.

(** X3: a URL that [urlparse] refuses has the empty domain, and is blocked only
    by an empty entry of the exclusion list. *)
Theorem is_domain_blocked_unparsable url e excluded :
  urlparse url = Raised e →
  is_domain_blocked url excluded = true ↔ EmptyString ∈ excluded.
Proof.
  intros Hraise. unfold is_domain_blocked, extract_domain. rewrite Hraise.
  induction excluded as [|d l IH]; simpl.
  - split; [done|]. by intros ?%elem_of_nil.
  - rewrite orb_true_iff, IH, elem_of_cons.
    pose proof (contains_empty_hay d) as Hd. simpl in Hd. rewrite Hd. naive_solver.
Qed.

(** X4: an empty entry in the exclusion list blocks every URL. *)
Theorem is_domain_blocked_empty_entry url excluded :
  EmptyString ∈ excluded → is_domain_blocked url excluded = true.
Proof.
  intros Hin. unfold is_domain_blocked.
  apply existsb_exists. exists EmptyString. split; [by apply list_elem_of_In|].
  apply contains_empty_needle.
Qed.
End UrlFacts.

Section FetcherFacts.
Context `{Libraries}.

Lemma find_by_Some p soup m :
  Bs4.find_by p soup = Some m → m ∈ Bs4.descendants soup ∧ p m = true.
Proof.
  unfold Bs4.find_by, Bs4.find_all_by. intros Hhead.
  apply elem_of_List_filter. apply head_Some in Hhead as [l ->]. left.
Qed.

Lemma lookup_selector_Some selector soup m :
  lookup_selector selector soup = Some m → m ∈ Bs4.descendants soup.
Proof.
  unfold lookup_selector, Bs4.select_one_attr, Bs4.find.
  destruct (String.prefix "[" selector); intros Hm; by apply find_by_Some in Hm as [? _].
Qed.

Lemma select_loop_Some sels soup m :
  select_loop sels soup None = Some m → m ∈ Bs4.descendants soup.
Proof.
  assert (∀ mc, (∀ m', mc = Some m' → m' ∈ Bs4.descendants soup) →
                select_loop sels soup mc = Some m → m ∈ Bs4.descendants soup) as Hgen.
  { induction sels as [|selector rest IH]; intros mc Hmc; simpl; [by apply Hmc|].
    destruct (lookup_selector selector soup) as [c|] eqn:Hc.
    - apply lookup_selector_Some in Hc.
      destruct (200 <? String.length (Bs4.get_text_strip c)).
      + by intros [= <-].
      + apply IH. by intros m' [= <-].
    - by apply IH. }
  by apply Hgen.
Qed.

Lemma fallback_inside soup :
  default soup (Bs4.find "body" soup) = soup ∨
  default soup (Bs4.find "body" soup) ∈ Bs4.descendants soup.
Proof.
  destruct (Bs4.find "body" soup) as [b|] eqn:Hb; simpl; [right|by left].
  by apply find_by_Some in Hb as [? _].
Qed.

Lemma select_main_content_inside soup :
  select_main_content soup = soup ∨ select_main_content soup ∈ Bs4.descendants soup.
Proof.
  unfold select_main_content.
  destruct (select_loop selectors soup None) as [m|] eqn:Hm; [|apply fallback_inside].
  destruct (String.length (Bs4.get_text_strip m) <? 200); [apply fallback_inside|].
  right. by eapply select_loop_Some.
Qed.

Lemma strip_noncontent_once soup :
  strip_noncontent soup = Bs4.decompose_all removed_names soup.
Proof. unfold strip_noncontent. by rewrite decompose_all_app. Qed.

(** X6: nothing of what was removed is left in the selected subtree. *)
Theorem main_content_clean soup d :
  d ∈ Bs4.descendants (select_main_content (strip_noncontent soup)) →
  Bs4.is_named removed_names d = false.
Proof.
  intros Hd. rewrite strip_noncontent_once in Hd.
  apply (decompose_all_clean removed_names soup).
  destruct (select_main_content_inside (Bs4.decompose_all removed_names soup))
    as [Heq|Hin]; [by rewrite Heq in Hd|].
  by eapply descendants_trans.
Qed.

(** X5: the order of the two removals does not matter, and one pass does. *)
Theorem strip_noncontent_one_pass soup :
  strip_noncontent soup = Bs4.decompose_all removed_names soup ∧
  strip_noncontent soup =
    Bs4.decompose_all ["script"; "style"; "meta"; "link"; "noscript"]
      (Bs4.decompose_all ["nav"; "header"; "footer"; "aside"; "ads"] soup) ∧
  strip_noncontent (strip_noncontent soup) = strip_noncontent soup.
Proof.
  split; [apply strip_noncontent_once|]. split.
  - rewrite strip_noncontent_once, decompose_all_app.
    induction soup as [s|nm attrs cls cs IH] using node_nested_ind; [done|].
    rewrite !decompose_all_Tag. f_equal.
    induction IH as [|c cs Hc _ IHcs]; [done|].
    cbn [List.filter].
    replace (Bs4.is_named (_ ++ _) c) with (Bs4.is_named removed_names c).
    2:{ unfold removed_names. rewrite is_named_app.
        change ["script"; "style"; "meta"; "link"; "noscript"; "nav"; "header";
                "footer"; "aside"; "ads"]
          with (["script"; "style"; "meta"; "link"; "noscript"] ++
                ["nav"; "header"; "footer"; "aside"; "ads"]).
        rewrite is_named_app. apply orb_comm. }
    destruct (Bs4.is_named removed_names c); cbn [negb]; [done|].
    by rewrite !fmap_cons, Hc, IHcs.
  - rewrite !strip_noncontent_once, decompose_all_app.
    induction soup as [s|nm attrs cls cs IH] using node_nested_ind; [done|].
    rewrite !decompose_all_Tag. f_equal.
    induction IH as [|c cs Hc _ IHcs]; [done|].
    cbn [List.filter]. rewrite is_named_app, orb_diag.
    destruct (Bs4.is_named removed_names c); cbn [negb]; [done|].
    by rewrite !fmap_cons, Hc, IHcs.
Qed.








(** X13: every answer is a success or an error, and an error has the two keys
    [type] and [message] and nothing else. *)
Theorem scrape_url_success_or_error url o :
  (is_success (scrape_url url o) = true ∧ is_error (scrape_url url o) = false) ∨
  (∃ message, scrape_url url o = error_dict message).
Proof.
  unfold scrape_url.
  destruct (extract o) as [err|[title final_content]] eqn:Hx.
  - right. by apply extract_error in Hx.
  - destruct (String.length final_content <? 100); [right; eauto|]. by left.
Qed.

(** X14: with a dependency missing the answer names the first missing one,
    whatever the URL and the network, and no request is made. *)
Theorem scrape_url_missing_dependency url o w :
  dependencies_available = false →
  scrape_url url o =
    error_dict ((if negb CURL_CFFI_AVAILABLE then "curl_cffi"
                 else if negb BS4_AVAILABLE then "beautifulsoup4"
                 else "html2text") +:+ " não está instalado") ∧
  scrape_url_io url w = (scrape_url url o, w).
Proof.
  unfold scrape_url_io, dependencies_available, scrape_url, extract.
  destruct CURL_CFFI_AVAILABLE, BS4_AVAILABLE, HTML2TEXT_AVAILABLE;
    cbn [andb negb]; intros Hmissing; try discriminate; split; reflexivity.
Qed.
End FetcherFacts.

Section CleanupFacts.

Local Abbreviation chars := list_ascii_of_string.

Lemma chars_inj s1 s2 : chars s1 = chars s2 → s1 = s2.
Proof.
  intros Heq. rewrite <-(string_of_list_ascii_of_string s1),
    <-(string_of_list_ascii_of_string s2). by rewrite Heq.
Qed.

Lemma chars_app a b : chars (a +:+ b) = chars a ++ chars b.
Proof. induction a as [|c a IH]; [done|]. rewrite append_cons. simpl. by rewrite IH. Qed.

Lemma chars_rev_app s1 s2 :
  chars (String.rev_app s1 s2) = reverse (chars s1) ++ chars s2.
Proof.
  revert s2. induction s1 as [|c s1 IH]; intros s2; simpl; [done|].
  by rewrite IH, reverse_cons, <-(assoc_L (++)).
Qed.

Lemma chars_rev s : chars (String.rev s) = reverse (chars s).
Proof. unfold String.rev. by rewrite chars_rev_app, app_nil_r. Qed.

Lemma rev_involutive s : String.rev (String.rev s) = s.
Proof. apply chars_inj. by rewrite !chars_rev, reverse_involutive. Qed.

Lemma rev_append a b : String.rev (a +:+ b) = String.rev b +:+ String.rev a.
Proof. apply chars_inj. by rewrite chars_app, !chars_rev, chars_app, reverse_app. Qed.

Lemma rev_cons c s : String.rev (String c s) = String.rev s +:+ String c EmptyString.
Proof. apply chars_inj. by rewrite chars_app, !chars_rev; simpl; rewrite reverse_cons. Qed.

(** *** [strip] *)

Lemma lstrip_split s : ∃ ws, blank ws ∧ s = ws +:+ Py.lstrip s.
Proof.
  induction s as [|c s (ws & Hws & IH)].
  - exists EmptyString. split; [constructor|reflexivity].
  - simpl. destruct (Py.isspace c) eqn:Hc.
    + exists (String c ws). split; [by constructor|]. by rewrite append_cons, <-IH.
    + exists EmptyString. split; [constructor|reflexivity].
Qed.

Lemma lstrip_tight s : tight (Py.lstrip s).
Proof.
  induction s as [|c s IH]; [done|]. simpl.
  destruct (Py.isspace c) eqn:Hc; [done|]. done.
Qed.

Lemma lstrip_of_tight s : tight s → Py.lstrip s = s.
Proof. destruct s as [|c s]; [done|]. simpl. by intros ->. Qed.

Lemma lstrip_idemp s : Py.lstrip (Py.lstrip s) = Py.lstrip s.
Proof. apply lstrip_of_tight, lstrip_tight. Qed.

Lemma rstrip_split s : ∃ ws, blank ws ∧ s = Py.rstrip s +:+ ws.
Proof.
  unfold Py.rstrip. destruct (lstrip_split (String.rev s)) as (ws & Hws & Hs).
  exists (String.rev ws). split.
  - unfold blank in *. rewrite chars_rev. by apply Forall_reverse.
  - rewrite <-rev_append, <-Hs. by rewrite rev_involutive.
Qed.

Lemma rstrip_idemp s : Py.rstrip (Py.rstrip s) = Py.rstrip s.
Proof. unfold Py.rstrip. by rewrite rev_involutive, lstrip_idemp. Qed.

Lemma rstrip_tight s : tight s → tight (Py.rstrip s).
Proof.
  destruct (rstrip_split s) as (ws & _ & Hs). intros Htight.
  destruct (Py.rstrip s) as [|c r]; [done|].
  rewrite Hs in Htight. by rewrite append_cons in Htight.
Qed.

Lemma strip_idemp s : Py.strip (Py.strip s) = Py.strip s.
Proof.
  unfold Py.strip.
  rewrite (lstrip_of_tight (Py.rstrip (Py.lstrip s)))
    by apply rstrip_tight, lstrip_tight.
  apply rstrip_idemp.
Qed.

Lemma strip_chars s c : c ∈ chars (Py.strip s) → c ∈ chars s.
Proof.
  unfold Py.strip. intros Hc.
  destruct (lstrip_split s) as (ws1 & _ & Hs1).
  destruct (rstrip_split (Py.lstrip s)) as (ws2 & _ & Hs2).
  rewrite Hs1, chars_app, Hs2, chars_app. set_solver.
Qed.

(** *** [split] and [join] *)

Lemma split_go_chars sep cur s p c :
  p ∈ Py.split_go sep cur s → c ∈ chars p → c ≠ sep ∨ c ∈ chars cur.
Proof.
  revert cur. induction s as [|x s IH]; intros cur; simpl.
  - intros ->%list_elem_of_singleton. rewrite chars_rev, elem_of_reverse. auto.
  - destruct (Ascii.eqb x sep) eqn:Hx.
    + intros [->|Hp]%elem_of_cons Hc.
      * rewrite chars_rev, elem_of_reverse in Hc. auto.
      * destruct (IH _ Hp Hc) as [?|Hin]; [auto|]. by apply elem_of_nil in Hin.
    + intros Hp Hc. destruct (IH _ Hp Hc) as [?|Hin]; [auto|].
      simpl in Hin. apply elem_of_cons in Hin as [->|?]; [|auto].
      left. intros ->. by rewrite Ascii.eqb_refl in Hx.
Qed.

Lemma split_no_sep sep s p : p ∈ Py.split sep s → sep ∉ chars p.
Proof.
  intros Hp Hsep. destruct (split_go_chars _ _ _ _ _ Hp Hsep) as [?|Hin]; [done|].
  by apply elem_of_nil in Hin.
Qed.

Lemma split_go_piece sep cur p :
  sep ∉ chars p → Py.split_go sep cur p = [String.rev cur +:+ p].
Proof.
  revert cur. induction p as [|x p IH]; intros cur Hp; simpl.
  - by rewrite append_nil_r.
  - simpl in Hp. apply not_elem_of_cons in Hp as [Hx Hp].
    destruct (Ascii.eqb x sep) eqn:Hx'; [by apply Ascii.eqb_eq in Hx'|].
    rewrite IH by done. by rewrite rev_cons, append_assoc.
Qed.

Lemma split_go_line sep cur p rest :
  sep ∉ chars p →
  Py.split_go sep cur (p +:+ String sep rest) =
  (String.rev cur +:+ p) :: Py.split_go sep EmptyString rest.
Proof.
  revert cur. induction p as [|x p IH]; intros cur Hp.
  - simpl. by rewrite Ascii.eqb_refl, append_nil_r.
  - simpl in Hp. apply not_elem_of_cons in Hp as [Hx Hp].
    rewrite append_cons. simpl.
    destruct (Ascii.eqb x sep) eqn:Hx'; [by apply Ascii.eqb_eq in Hx'|].
    rewrite IH by done. by rewrite rev_cons, append_assoc.
Qed.

Lemma join_cons sep l1 l2 ls :
  Py.join sep (l1 :: l2 :: ls) = l1 +:+ sep +:+ Py.join sep (l2 :: ls).
Proof. reflexivity. Qed.

(** Splitting what was joined gives the lines back. *)
Lemma split_join sep lines :
  lines ≠ [] → Forall (λ l, sep ∉ chars l) lines →
  Py.split sep (Py.join (String sep EmptyString) lines) = lines.
Proof.
  intros Hne Hall. unfold Py.split.
  induction Hall as [|l ls Hl Hls IH]; [done|].
  destruct ls as [|l2 ls].
  - simpl. by rewrite split_go_piece.
  - rewrite join_cons, append_cons. change (EmptyString +:+ ?x) with x.
    rewrite split_go_line by done. f_equal. by apply IH.
Qed.
End CleanupFacts.

Section CleanupTheorems.
Local Abbreviation chars := list_ascii_of_string.

Lemma length_append a b : String.length (a +:+ b) = String.length a + String.length b.
Proof. induction a as [|c a IH]; [done|]. rewrite append_cons. simpl. by rewrite IH. Qed.

Lemma length_rev s : String.length (String.rev s) = String.length s.
Proof.
  induction s as [|c s IH]; [done|]. rewrite rev_cons, length_append, IH. simpl. lia.
Qed.

Lemma strip_length s : String.length (Py.strip s) ≤ String.length s.
Proof.
  unfold Py.strip.
  destruct (lstrip_split s) as (ws1 & _ & Hs1).
  destruct (rstrip_split (Py.lstrip s)) as (ws2 & _ & Hs2).
  rewrite Hs1 at 2. rewrite length_append. rewrite Hs2 at 2. rewrite length_append. lia.
Qed.

Lemma split_go_lines_weight sep cur s :
  lines_weight (Py.split_go sep cur s) = S (String.length cur + String.length s).
Proof.
  unfold lines_weight. revert cur. induction s as [|x s IH]; intros cur; simpl.
  - rewrite length_rev. lia.
  - destruct (Ascii.eqb x sep); csimpl.
    + rewrite IH, length_rev. simpl. lia.
    + rewrite IH. simpl. lia.
Qed.

Lemma join_lines_weight sep lines :
  lines ≠ [] → S (String.length (Py.join (String sep EmptyString) lines)) = lines_weight lines.
Proof.
  unfold lines_weight. induction lines as [|l ls IH]; [done|]. intros _.
  destruct ls as [|l2 ls]; [simpl; lia|].
  rewrite join_cons, length_append, append_cons. simpl String.length.
  change (EmptyString +:+ ?x) with x. csimpl in *. rewrite <-IH by done. lia.
Qed.

Lemma clean_lines_lines_weight s : lines_weight (clean_lines s) ≤ S (String.length s).
Proof.
  unfold clean_lines, Py.split.
  rewrite <-(Nat.add_0_l (String.length s)).
  change 0 with (String.length EmptyString).
  rewrite <-(split_go_lines_weight Py.newline).
  unfold lines_weight. induction (Py.split_go _ _ s) as [|p ps IH]; csimpl; [done|].
  pose proof (strip_length p). destruct (Py.truthy (Py.strip p)); csimpl; lia.
Qed.

Lemma final_cleanup_join s : final_cleanup s = Py.join Py.nl (clean_lines s).
Proof. reflexivity. Qed.

Lemma clean_lines_Forall s :
  Forall (λ l, l ≠ EmptyString ∧ Py.strip l = l ∧ Py.newline ∉ chars l) (clean_lines s).
Proof.
  apply Forall_forall. intros l Hl. unfold clean_lines in Hl.
  apply list_elem_of_In, filter_In in Hl as [Hl Htruthy].
  apply list_elem_of_In, list_elem_of_fmap in Hl as (p & -> & Hp).
  split; [by destruct (Py.strip p)|]. split; [apply strip_idemp|].
  intros Hnl%strip_chars. by apply (split_no_sep _ _ _ Hp).
Qed.

Lemma clean_lines_fixed lines :
  Forall (λ l, l ≠ EmptyString ∧ Py.strip l = l ∧ Py.newline ∉ chars l) lines →
  List.filter Py.truthy (Py.strip <$> lines) = lines.
Proof.
  induction 1 as [|l ls (Hne & Hstrip & _) _ IH]; [done|]. csimpl.
  rewrite Hstrip. destruct l; [done|]. simpl. by rewrite IH.
Qed.


(** X10: cleaning a clean text changes nothing. *)
Theorem final_cleanup_idemp s : final_cleanup (final_cleanup s) = final_cleanup s.
Proof.
  pose proof (clean_lines_Forall s) as Hall.
  rewrite (final_cleanup_join (final_cleanup s)), (final_cleanup_join s).
  destruct (clean_lines s) as [|l ls] eqn:Hlines; [done|].
  f_equal. unfold clean_lines, Py.nl.
  rewrite split_join; [by apply clean_lines_fixed|done|].
  eapply Forall_impl; [exact Hall|]. by intros ? (_ & _ & ?).
Qed.

(** X11: the cleanup never makes the text longer. *)
Theorem final_cleanup_length s :
  String.length (final_cleanup s) ≤ String.length s.
Proof.
  rewrite final_cleanup_join. pose proof (clean_lines_lines_weight s) as Hw.
  destruct (clean_lines s) as [|l ls] eqn:Hlines; [simpl; lia|].
  unfold Py.nl. rewrite <-(join_lines_weight Py.newline (l :: ls)) in Hw by done. lia.
Qed.
End CleanupTheorems.

Section SearchFacts.
Context `{Libraries}.

(** X16: every URL the adapter returns is the non-empty [href] of a result
    link of the parsed page, and no tracker. *)
Theorem search_results_hrefs o limit url :
  url ∈ search_results o limit →
  ∃ response soup link,
    o = Returned response ∧ status_error response = None ∧
    BeautifulSoup (content response) = Returned soup ∧
    link ∈ result_links soup ∧ Bs4.get "href" link = Some url ∧
    url ≠ EmptyString ∧ is_ad_or_tracker_url url = false.
Proof.
  unfold search_results.
  destruct o as [response|e]; [|by intros ?%elem_of_nil].
  destruct (status_error response) eqn:Hstatus; [by intros ?%elem_of_nil|].
  destruct (BeautifulSoup (content response)) as [soup|e] eqn:Hsoup;
    [|by intros ?%elem_of_nil].
  rewrite collect_hrefs_spec by (simpl; lia).
  intros Hurl%subseteq_take. simpl in Hurl.
  apply list_elem_of_omap in Hurl as (link & Hlink & Hhref).
  unfold Spec.organic_href in Hhref.
  destruct (Bs4.get "href" link) as [href|] eqn:Hget; [|done].
  destruct (Py.truthy href && negb (is_ad_or_tracker_url href)) eqn:Hkeep; [|done].
  simplify_eq. apply andb_true_iff in Hkeep as [Htruthy Hkeep].
  exists response, soup, link. repeat split; try done.
  - by destruct url.
  - by apply negb_true_iff.
Qed.

Lemma search_duckduckgo_run query limit w :
  search_duckduckgo query limit w =
  if search_ready then
    (search_results
       (transport w (issued w) ("https://duckduckgo.com/html/?q=" +:+ quote query))
       limit,
     {| transport := transport w; issued := S (issued w);
        searches := searches w ++ [(query, limit)];
        stdout := stdout w; scheduler := scheduler w |})
  else
    ([], {| transport := transport w; issued := issued w;
            searches := searches w ++ [(query, limit)];
            stdout := stdout w; scheduler := scheduler w |}).
Proof.
  unfold search_duckduckgo, search_ready. unfold_M. simpl.
  by destruct CURL_CFFI_AVAILABLE, BS4_AVAILABLE.
Qed.

(** X17: without curl_cffi or bs4 a search returns nothing and asks
    nothing of the network. *)
Theorem search_duckduckgo_not_ready query limit w :
  search_ready = false →
  (search_duckduckgo query limit w).1 = [] ∧
  issued (search_duckduckgo query limit w).2 = issued w ∧
  stdout (search_duckduckgo query limit w).2 = stdout w.
Proof. intros Hready. by rewrite search_duckduckgo_run, Hready. Qed.

Lemma call_all_issued calls w :
  issued (Spec.call_all calls w).2 =
  issued w + (if search_ready then length calls else 0).
Proof.
  revert w. induction calls as [|[query limit] rest IH]; intros w; simpl.
  - destruct search_ready; lia.
  - unfold_M. rewrite search_duckduckgo_run.
    destruct search_ready eqn:Hready.
    + specialize (IH {| transport := transport w; issued := S (issued w);
                        searches := searches w ++ [(query, limit)];
                        stdout := stdout w; scheduler := scheduler w |}).
      rewrite ?Hready in IH.
      destruct (Spec.call_all rest _) as [more w2]; simpl in *. lia.
    + specialize (IH {| transport := transport w; issued := issued w;
                        searches := searches w ++ [(query, limit)];
                        stdout := stdout w; scheduler := scheduler w |}).
      rewrite ?Hready in IH.
      destruct (Spec.call_all rest _) as [more w2]; simpl in *. lia.
Qed.

Lemma call_all_not_ready calls w :
  search_ready = false → concat (Spec.call_all calls w).1 = [].
Proof.
  intros Hready. revert w.
  induction calls as [|[query limit] rest IH]; intros w; simpl; [done|].
  unfold_M. rewrite search_duckduckgo_run, Hready.
  specialize (IH {| transport := transport w; issued := issued w;
                    searches := searches w ++ [(query, limit)];
                    stdout := stdout w; scheduler := scheduler w |}).
  destruct (Spec.call_all rest _) as [more w2]; simpl in *. done.
Qed.

Lemma call_all_stdout calls w : stdout (Spec.call_all calls w).2 = stdout w.
Proof.
  revert w. induction calls as [|[query limit] rest IH]; intros w; simpl; [done|].
  unfold_M. rewrite search_duckduckgo_run.
  destruct search_ready;
    match goal with |- context [Spec.call_all rest ?w1] =>
      specialize (IH w1); destruct (Spec.call_all rest w1) end; simpl in *; done.
Qed.

Lemma smart_search_impl_run query config w :
  smart_search_impl query config w =
  (filter_urls config (concat (Spec.call_all (Spec.queries query config) w).1),
   (Spec.call_all (Spec.queries query config) w).2).
Proof.
  unfold smart_search_impl. unfold_M. rewrite gather_urls_calls.
  by destruct (Spec.call_all _ w).
Qed.

Lemma queries_length query config :
  length (Spec.queries query config) ≤ 4 + 2 * length (default [] (categories config)).
Proof.
  assert (length (default [] (categories config) ≫= Spec.category_queries query)
          ≤ 2 * length (default [] (categories config))) as Hcats.
  { induction (default [] (categories config)) as [|c cs IH]; [done|].
    rewrite bind_cons, length_app, length_cons. unfold Spec.category_queries at 1.
    destruct (default false (enabled c)); [|simpl; lia].
    rewrite length_fmap, length_take. lia. }
  unfold Spec.queries. rewrite !length_app, length_fmap, length_take.
  cbn [length]. lia.
Qed.

(** X18: one run of the aggregator makes one request per query when curl_cffi
    and bs4 are there, that is at most four plus two per category, and none
    otherwise; it prints nothing. *)
Theorem smart_search_impl_requests query config w :
  let w' := (smart_search_impl query config w).2 in
  issued w' = issued w + (if search_ready then length (Spec.queries query config) else 0) ∧
  issued w' ≤ issued w + 4 + 2 * length (default [] (categories config)) ∧
  length (searches w') ≤
    length (searches w) + 4 + 2 * length (default [] (categories config)) ∧
  stdout w' = stdout w.
Proof.
  intros w'. unfold w'. rewrite smart_search_impl_run. cbn [snd].
  pose proof (queries_length query config) as Hlen.
  rewrite call_all_issued, call_all_searches, call_all_stdout, length_app.
  split; [done|]. split; [destruct search_ready; lia|]. split; [lia|done].
Qed.
End SearchFacts.

Section AggregatorFacts.
Context `{Libraries}.

Lemma filter_Forall_id {A} (P : A → Prop) `{∀ x, Decision (P x)} (l : list A) :
  Forall P l → filter P l = l.
Proof.
  induction 1 as [|x l Hx _ IH]; [done|]. by rewrite filter_cons_True, IH.
Qed.

Lemma first_occurrences_NoDup_id l : NoDup l → Spec.first_occurrences l = l.
Proof.
  induction 1 as [|x l Hx _ IH]; simpl; [done|]. rewrite IH. f_equal.
  apply filter_Forall_id, Forall_forall. by intros y Hy ->.
Qed.

(** A limit below 1 works like the limit 1. *)
Lemma filter_loop_low_limit excluded limit all_urls seen :
  (limit ≤ 1)%Z →
  filter_loop excluded limit all_urls [] seen = filter_loop excluded 1 all_urls [] seen.
Proof.
  intros Hlimit. revert seen. induction all_urls as [|url rest IH]; intros seen; [done|].
  simpl. destruct (bool_decide (url ∉ seen) && negb _); [|apply IH].
  destruct (limit <=? Z.of_nat 1)%Z eqn:Hle; [done|]. apply Z.leb_gt in Hle. lia.
Qed.

Lemma filter_urls_general config all_urls :
  filter_urls config all_urls =
  take (Z.to_nat (Z.max 1 (total_limit config)))
    (filter (λ url, is_domain_blocked url (default [] (excluded_domains config)) = false)
       (Spec.first_occurrences all_urls)).
Proof.
  unfold filter_urls.
  assert (∀ limit, (1 ≤ limit)%Z →
    filter_loop (default [] (excluded_domains config)) limit all_urls [] ∅ =
    take (Z.to_nat limit)
      (filter (λ url, is_domain_blocked url (default [] (excluded_domains config)) = false)
         (Spec.first_occurrences all_urls))) as Hpos.
  { intros limit Hlimit. rewrite filter_loop_spec by (simpl; lia). simpl. f_equal.
    apply list_filter_iff. intros url. unfold Spec.wanted. set_solver. }
  destruct (decide (1 ≤ total_limit config)%Z) as [Hge|Hlt].
  - rewrite Z.max_r by done. by apply Hpos.
  - rewrite Z.max_l by lia. rewrite filter_loop_low_limit by lia. by apply Hpos.
Qed.

(** X19: with a limit of 0 or less the filter still returns one URL, the
    first one that is not blocked. *)
Theorem filter_urls_low_limit config all_urls :
  (total_limit config ≤ 0)%Z →
  filter_urls config all_urls =
  option_list
    (head (filter (λ url, is_domain_blocked url (default [] (excluded_domains config)) = false)
             all_urls)).
Proof.
  intros Hlimit. rewrite filter_urls_general, Z.max_l by lia.
  change (Z.to_nat 1) with 1.
  induction all_urls as [|url rest IH]; [done|]. simpl.
  rewrite !filter_cons. case_decide; [done|].
  rewrite list_filter_filter.
  rewrite <-IH. f_equal. apply list_filter_iff. intros v.
  split; [by intros [? ?]|]. intros Hv. split; [done|]. by intros ->.
Qed.

(** Filtering a filtered list changes nothing. *)
Theorem filter_urls_idemp config all_urls :
  filter_urls config (filter_urls config all_urls) = filter_urls config all_urls.
Proof.
  rewrite (filter_urls_general config (filter_urls config all_urls)).
  rewrite filter_urls_general.
  set (P := λ url, is_domain_blocked url (default [] (excluded_domains config)) = false).
  set (n := Z.to_nat _).
  assert (NoDup (take n (filter P (Spec.first_occurrences all_urls)))) as Hnodup.
  { eapply sublist_NoDup; [|apply sublist_take].
    apply NoDup_filter, first_occurrences_NoDup. }
  rewrite first_occurrences_NoDup_id by done.
  rewrite filter_Forall_id, take_idemp; [done|].
  apply Forall_forall. intros url Hurl%subseteq_take.
  by apply list_elem_of_filter in Hurl as [? _].
Qed.

(** X20: with no enabled category and no custom site the aggregator makes the
    general query only, and returns at most half the limit. *)
Theorem smart_search_impl_general_only query config w :
  Forall (λ category, default false (enabled category) = false)
    (default [] (categories config)) →
  default [] (user_custom_sites config) = [] →
  (2 ≤ total_limit config)%Z →
  searches (smart_search_impl query config w).2 =
    searches w ++ [(query, (total_limit config `div` 2)%Z)] ∧
  (Z.of_nat (length (smart_search_impl query config w).1) ≤ total_limit config `div` 2)%Z.
Proof.
  intros Hcats Hsites Hlimit.
  assert (Spec.queries query config = [(query, (total_limit config `div` 2)%Z)]) as Hq.
  { unfold Spec.queries. rewrite Hsites. simpl.
    replace (default [] (categories config) ≫= Spec.category_queries query)
      with (@nil (string * Z)); [done|].
    induction Hcats as [|c cs Hc _ IH]; [done|]. rewrite bind_cons, <-IH.
    unfold Spec.category_queries. by rewrite Hc. }
  rewrite smart_search_impl_run, Hq. cbn [fst snd].
  split.
  - pose proof (call_all_searches [(query, (total_limit config `div` 2)%Z)] w) as Hs.
    done.
  - simpl. unfold_M. rewrite search_duckduckgo_run.
    assert (1 ≤ total_limit config `div` 2)%Z as Hhalf
      by (apply Z.div_le_lower_bound; lia).
    set (urls := if search_ready then _ else _).
    assert (Z.of_nat (length (concat [urls.1])) ≤ total_limit config `div` 2)%Z as Hlen.
    { unfold urls. simpl. rewrite app_nil_r. destruct search_ready; simpl; [|lia].
      by apply search_results_bound. }
    destruct urls as [us w1]. simpl in *.
    rewrite filter_urls_general.
    rewrite length_take. etrans; [|exact Hlen].
    apply Nat2Z.inj_le. etrans; [apply Nat.le_min_r|].
    etrans; [apply length_filter|].
    apply sublist_length, first_occurrences_sublist.
Qed.
End AggregatorFacts.

Section BulkFacts.
Context `{Libraries}.

Lemma bulk_results_perm fetch urls sched :
  bulk_results fetch urls sched ≡ₚ
  filter (λ result, is_success result)
    (imap (λ i url, scrape_with_logging url (fetch i url)) urls).
Proof.
  unfold bulk_results, bulk_state. rewrite <-bulk_work_tasks.
  by rewrite (PoolFacts.complete_yielded _ _ max_workers_pos).
Qed.

Lemma bulk_results_length fetch urls sched :
  length (bulk_results fetch urls sched) ≤ length urls.
Proof.
  rewrite bulk_results_perm. etrans; [apply length_filter|]. by rewrite length_imap.
Qed.

(** X21: the scheduler decides the order of the results and nothing else. *)
Theorem bulk_results_scheduler fetch urls sched1 sched2 :
  bulk_results fetch urls sched1 ≡ₚ bulk_results fetch urls sched2 ∧
  length (bulk_results fetch urls sched1) ≤ length urls.
Proof. split; [by rewrite !bulk_results_perm|apply bulk_results_length]. Qed.



(** X23: with a dependency missing the bulk fetch returns no result, for any
    list of URLs. *)
Theorem scrape_urls_bulk_impl_missing_dependency urls w :
  dependencies_available = false → (scrape_urls_bulk_impl urls w).1 = [].
Proof.
  intros Hmissing. apply Permutation_nil_r.
  unfold scrape_urls_bulk_impl. cbn [fst]. rewrite bulk_results_perm.
  assert (∀ l : list dict, Forall (λ r, ¬ is_success r) l →
                           filter (λ r, is_success r) l = []) as Hnone.
  { induction 1 as [|r l Hr _ IH]; [done|]. by rewrite filter_cons_False. }
  rewrite Hnone; [done|]. apply Forall_forall. intros r Hr.
  apply list_elem_of_lookup in Hr as [i Hi]. rewrite list_lookup_imap in Hi.
  destruct (urls !! i) as [url|]; [|done]. simpl in Hi. simplify_eq.
  unfold scrape_url, extract, dependencies_available in *.
  destruct CURL_CFFI_AVAILABLE, BS4_AVAILABLE, HTML2TEXT_AVAILABLE;
    try discriminate; cbn [negb]; by intros ?.
Qed.
End BulkFacts.

Section MainFacts.
Context `{Libraries}.

Lemma script_dispatch input command_data w :
  Py.strip input ≠ EmptyString →
  json_loads (Py.strip input) = Returned (PObject command_data) →
  script input w = (0%Z, (dispatch command_data w).2).
Proof.
  intros Hne Hloads. unfold script, main, main_body. unfold_M.
  rewrite (truthy_strip _ Hne), Hloads. simpl.
  by destruct (dispatch command_data w) as [[] w'].
Qed.

Lemma scrape_url_typed url o :
  is_success (scrape_url url o) || is_error (scrape_url url o) = true.
Proof.
  unfold scrape_url. destruct (extract o) as [err|[title final_content]] eqn:Hx.
  - by apply extract_error in Hx as [message ->].
  - by destruct (String.length final_content <? 100).
Qed.

Lemma scrape_url_io_run url w :
  ∃ o w', scrape_url_io url w = (scrape_url url o, w') ∧ stdout w' = stdout w ∧
          issued w' ≤ S (issued w).
Proof.
  unfold scrape_url_io. unfold_M. destruct dependencies_available; simpl.
  - eexists _, _. split; [done|]. simpl. split; [done|lia].
  - eexists _, _. split; [done|]. split; [done|lia].
Qed.

Lemma search_duckduckgo_stdout query limit w :
  stdout (search_duckduckgo query limit w).2 = stdout w.
Proof. rewrite search_duckduckgo_run. by destruct search_ready. Qed.

Lemma smart_search_impl_stdout query config w :
  stdout (smart_search_impl query config w).2 = stdout w.
Proof. rewrite smart_search_impl_run. apply call_all_stdout. Qed.

Lemma dispatch_prints_once command_data w :
  ∃ data, stdout (dispatch command_data w).2 = stdout w ++ [VDict data] ∧ answer_typed data.
Proof.
  unfold dispatch, answer_typed.
  repeat case_bool_decide.
  - destruct (falsy (cmd_url command_data)); [by eexists|].
    unfold_M. destruct (scrape_url_io_run (default EmptyString (cmd_url command_data)) w)
      as (o & w' & -> & Hout & _).
    eexists. simpl. rewrite Hout. split; [done|]. apply scrape_url_typed.
  - destruct (falsy (cmd_query command_data)); [by eexists|].
    unfold_M.
    pose proof (search_duckduckgo_stdout
                  (default EmptyString (cmd_query command_data))
                  (default 5%Z (cmd_limit command_data)) w) as Hout.
    destruct (search_duckduckgo _ _ w) as [urls w']. simpl in *.
    eexists. rewrite Hout. by split.
  - destruct (falsy (cmd_query command_data)); [by eexists|].
    unfold_M.
    pose proof (smart_search_impl_stdout
                  (default EmptyString (cmd_query command_data))
                  (default (Build_Config None None None None)
                     (cmd_config command_data)) w) as Hout.
    destruct (smart_search_impl _ _ w) as [urls w']. simpl in *.
    eexists. rewrite Hout. by split.
  - destruct (falsy (cmd_query command_data)); [by eexists|].
    unfold_M.
    pose proof (smart_search_impl_stdout
                  (default EmptyString (cmd_query command_data))
                  (default (Build_Config None None None None)
                     (cmd_config command_data)) w) as Hout.
    destruct (smart_search_impl _ _ w) as [urls w']. simpl in *.
    destruct urls as [|url urls]; eexists; simpl; rewrite Hout; by split.
  - destruct (default [] (cmd_urls command_data)) as [|url urls]; by eexists.
  - unfold check.
    destruct CURL_CFFI_AVAILABLE, BS4_AVAILABLE, HTML2TEXT_AVAILABLE; by eexists.
  - by eexists.
Qed.

(** X24: whatever the input, the script prints exactly one value, an object
    whose type is success or error, and ends with exit code 0. *)
Theorem script_prints_once input w :
  (script input w).1 = 0%Z ∧
  ∃ data,
    stdout (script input w).2 = stdout w ++ [VDict data] ∧
    (is_success data = true ∨ is_error data = true).
Proof.
  split; [apply script_exit_code|].
  assert (∀ data : dict, answer_typed data → is_success data = true ∨ is_error data = true)
    as Htyped by (intros data; unfold answer_typed; apply orb_true_iff).
  destruct (decide (Py.strip input = EmptyString)) as [Hempty|Hne].
  { unfold script, main, main_body. unfold_M. rewrite Hempty. simpl.
    eexists. split; [done|]. by right. }
  unfold script, main, main_body. unfold_M. rewrite (truthy_strip _ Hne). simpl.
  destruct (json_loads (Py.strip input)) as [[command_data|type_name]|e]; simpl.
  - destruct (dispatch_prints_once command_data w) as (data & Hout & Hdata).
    destruct (dispatch command_data w) as [[] w']. simpl in *. eauto.
  - eexists. split; [done|]. by right.
  - eexists. split; [done|]. by right.
Qed.
End MainFacts.

Local Ltac decide_commands :=
  repeat match goal with
         | |- context [bool_decide (Some ?a = Some ?b)] =>
             let v := eval vm_compute in (bool_decide (Some a = Some b)) in
             change (bool_decide (Some a = Some b)) with v
         end;
  cbv beta iota.

Section CommandFacts.
Context `{Libraries}.

(** X26: [check] answers with a success exactly when the three dependencies
    are there; otherwise the message names every missing one. *)
Theorem script_check_answer input command_data w :
  Py.strip input ≠ EmptyString →
  json_loads (Py.strip input) = Returned (PObject command_data) →
  cmd_command command_data = Some "check" →
  ∃ data,
    script input w = (0%Z, printed data w) ∧
    (dependencies_available = true →
     data = [("type", VStr "success"); ("message", VStr "All dependencies available")]) ∧
    (dependencies_available = false →
     ∃ message,
       data = error_dict message ∧
       String.prefix "Missing: " message = true ∧
       (CURL_CFFI_AVAILABLE = false → Py.contains "curl_cffi" message = true) ∧
       (BS4_AVAILABLE = false → Py.contains "beautifulsoup4" message = true) ∧
       (HTML2TEXT_AVAILABLE = false → Py.contains "html2text" message = true)).
Proof.
  intros Hne Hloads Hcmd. rewrite (script_dispatch _ _ _ Hne Hloads).
  unfold dispatch. rewrite Hcmd. cbn [bool_decide decide_rel]. simpl.
  unfold check, dependencies_available.
  destruct CURL_CFFI_AVAILABLE, BS4_AVAILABLE, HTML2TEXT_AVAILABLE; simpl;
    (eexists; split; [reflexivity|]; split; [try done|try done]);
    intros _; eexists; (split; [reflexivity|]);
    repeat split; try done; intros _; vm_compute; reflexivity.
Qed.

(** X27: a search command without a limit returns at most five URLs. *)
Theorem script_search_default_limit input command_data query w :
  Py.strip input ≠ EmptyString →
  json_loads (Py.strip input) = Returned (PObject command_data) →
  cmd_command command_data = Some "search_duckduckgo" →
  cmd_query command_data = Some query → query ≠ EmptyString →
  cmd_limit command_data = None →
  ∃ urls,
    stdout (script input w).2 = stdout w ++ [VDict (success_urls urls)] ∧
    urls = (search_duckduckgo query 5 w).1 ∧
    length urls ≤ 5.
Proof.
  intros Hne Hloads Hcmd Hquery Hq Hlimit. rewrite (script_dispatch _ _ _ Hne Hloads).
  unfold dispatch. rewrite Hcmd, Hquery, Hlimit. simpl.
  destruct query as [|c query]; [done|]. simpl. unfold_M.
  pose proof (search_duckduckgo_stdout (String c query) 5 w) as Hout.
  assert (length (search_duckduckgo (String c query) 5 w).1 ≤ 5) as Hlen.
  { rewrite search_duckduckgo_run. destruct search_ready; simpl; [|lia].
    pose proof (search_results_bound
                  (transport w (issued w)
                     ("https://duckduckgo.com/html/?q=" +:+ quote (String c query)))
                  5 ltac:(lia)). lia. }
  destruct (search_duckduckgo (String c query) 5 w) as [urls w']. simpl in *.
  exists urls. by rewrite Hout.
Qed.

(** X28: without curl_cffi or bs4 the three search commands answer with a
    success that holds an empty list, not with an error. *)
Theorem script_search_not_ready input command_data query w :
  Py.strip input ≠ EmptyString →
  json_loads (Py.strip input) = Returned (PObject command_data) →
  cmd_query command_data = Some query → query ≠ EmptyString →
  search_ready = false →
  (cmd_command command_data = Some "search_duckduckgo" ∨
   cmd_command command_data = Some "smart_search" →
   stdout (script input w).2 = stdout w ++ [VDict (success_urls [])]) ∧
  (cmd_command command_data = Some "search_and_scrape" →
   stdout (script input w).2 = stdout w ++ [VDict (success_results [])]) ∧
  (cmd_command command_data ∈
     [Some "search_duckduckgo"; Some "smart_search"; Some "search_and_scrape"] →
   issued (script input w).2 = issued w).
Proof.
  intros Hne Hloads Hquery Hq Hready. rewrite (script_dispatch _ _ _ Hne Hloads).
  assert (falsy (Some query) = false) as Hfalsy by by destruct query.
  assert (∀ config,
    (smart_search_impl query config w).1 = [] ∧
    stdout (smart_search_impl query config w).2 = stdout w ∧
    issued (smart_search_impl query config w).2 = issued w) as Hsmart.
  { intros config. rewrite smart_search_impl_run. cbn [fst snd].
    rewrite call_all_not_ready, call_all_stdout, call_all_issued, Hready by done.
    split; [by destruct config as [[] ? ? ?]|]. split; [done|lia]. }
  assert ((search_duckduckgo query (default 5%Z (cmd_limit command_data)) w).1 = [] ∧
          issued (search_duckduckgo query (default 5%Z (cmd_limit command_data)) w).2 =
            issued w ∧
          stdout (search_duckduckgo query (default 5%Z (cmd_limit command_data)) w).2 =
            stdout w) as (Hd1 & Hd2 & Hd3)
    by by rewrite search_duckduckgo_run, Hready.
  unfold dispatch. rewrite Hquery, Hfalsy.
  change (default EmptyString (Some query)) with query. unfold_M.
  assert (∀ config (k : list string → dict),
    stdout (let '(urls, w') := smart_search_impl query config w in
            print_json (k urls) w').2 = stdout w ++ [VDict (k [])] ∧
    issued (let '(urls, w') := smart_search_impl query config w in
            print_json (k urls) w').2 = issued w) as Hprint.
  { intros config k. destruct (Hsmart config) as (Hs1 & Hs2 & Hs3).
    destruct (smart_search_impl query config w) as [urls w'].
    cbn [fst snd] in *. subst urls. unfold print_json. cbn [snd stdout issued].
    by rewrite Hs2, Hs3. }
  split; [|split].
  - intros [Hcmd|Hcmd]; rewrite Hcmd; decide_commands.
    + destruct (search_duckduckgo query _ w) as [urls w'].
      cbn [fst snd] in *. subst urls. unfold print_json. cbn [snd stdout].
      by rewrite Hd3.
    + apply (Hprint _ success_urls).
  - intros Hcmd; rewrite Hcmd; decide_commands.
    destruct (Hsmart (default (Build_Config None None None None)
                        (cmd_config command_data))) as (Hs1 & Hs2 & _).
    destruct (smart_search_impl query _ w) as [urls w'].
    cbn [fst snd] in *. subst urls. unfold print_json. cbn [snd stdout].
    by rewrite Hs2.
  - rewrite !elem_of_cons, elem_of_nil.
    intros [Hcmd|[Hcmd|[Hcmd|[]]]]; rewrite Hcmd; decide_commands.
    + destruct (search_duckduckgo query _ w) as [urls w'].
      cbn [fst snd] in *. unfold print_json. by cbn [snd issued].
    + apply (Hprint _ success_urls).
    + destruct (Hsmart (default (Build_Config None None None None)
                          (cmd_config command_data))) as (Hs1 & _ & Hs3).
      destruct (smart_search_impl query _ w) as [urls w'].
      cbn [fst snd] in *. subst urls. unfold print_json. by cbn [snd issued].
Qed.
End CommandFacts.

Section ChainFacts.
Context `{Libraries}.

(** X29: [search_and_scrape] fetches the URLs that the aggregator returns and
    nothing else: with a positive limit it prints at most that many results,
    all of them successes, after at most one request per query and one per
    URL. *)
Theorem script_search_and_scrape_bound input command_data query w :
  Py.strip input ≠ EmptyString →
  json_loads (Py.strip input) = Returned (PObject command_data) →
  cmd_command command_data = Some "search_and_scrape" →
  cmd_query command_data = Some query → query ≠ EmptyString →
  let config := default (Build_Config None None None None) (cmd_config command_data) in
  (0 < total_limit config)%Z →
  ∃ results,
    stdout (script input w).2 = stdout w ++ [VDict (success_results results)] ∧
    (Z.of_nat (length results) ≤ total_limit config)%Z ∧
    Forall (λ result, is_success result = true) results ∧
    issued (script input w).2 ≤
      issued w + length (Spec.queries query config) + Z.to_nat (total_limit config).
Proof.
  intros Hne Hloads Hcmd Hquery Hq config Hlimit.
  rewrite (script_dispatch _ _ _ Hne Hloads).
  assert (falsy (Some query) = false) as Hfalsy by by destruct query.
  unfold dispatch. rewrite Hcmd, Hquery, Hfalsy.
  change (default EmptyString (Some query)) with query. fold config.
  decide_commands. unfold_M. cbv beta.
  pose proof (smart_search_impl_run query config w) as Hrun.
  pose proof (call_all_issued (Spec.queries query config) w) as Hissued.
  pose proof (call_all_stdout (Spec.queries query config) w) as Hout.
  destruct (Spec.call_all (Spec.queries query config) w) as [answers w1].
  cbn [fst snd] in *. rewrite Hrun.
  assert (length (filter_urls config (concat answers)) ≤ Z.to_nat (total_limit config))
    as Hurls.
  { rewrite filter_urls_general, length_take, Z.max_r by lia. lia. }
  assert (issued w1 ≤ issued w + length (Spec.queries query config)) as Hw1
    by (destruct search_ready; lia).
  destruct (filter_urls config (concat answers)) as [|url urls] eqn:Hfilter.
  - exists []. unfold print_json. cbn [snd stdout issued length].
    rewrite Hout. split; [done|]. split; [lia|]. split; [constructor|lia].
  - set (us := url :: urls) in *.
    pose proof (bulk_results_length
                  (λ i u, Returned (scrape_url u (transport w1 (issued w1 + i) u)))
                  us (scheduler w1)) as Hlen.
    exists (scrape_urls_bulk_impl us w1).1.
    unfold scrape_urls_bulk_impl, print_json. cbn [fst snd stdout issued].
    rewrite Hout. split; [done|]. split; [lia|]. split; [|lia].
    apply Forall_forall. intros result Hresult.
    rewrite bulk_results_perm in Hresult.
    apply list_elem_of_filter in Hresult as [Hok _]. by apply Is_true_true.
Qed.
End ChainFacts.

(** ** The further theorems at work on the example inputs *)

Lemma is_domain_blocked_unparsable_witness :
  is_domain_blocked (H := More.libs) "http://[::1/x" ["example.org"; EmptyString] = true ↔
  EmptyString ∈ ["example.org"; EmptyString].
Proof.
  apply (is_domain_blocked_unparsable (H := More.libs) "http://[::1/x" "Invalid IPv6 URL").
  vm_compute. reflexivity.
Defined.

Lemma is_domain_blocked_empty_entry_witness :
  is_domain_blocked (H := More.libs) "https://example.org/a" ["blocked.com"; EmptyString] = true.
Proof.
  apply (is_domain_blocked_empty_entry (H := More.libs)).
  apply list_elem_of_further, list_elem_of_here.
Defined.

Lemma main_content_clean_witness :
  Bs4.is_named removed_names
    (Tag "article" [] [] [NavigableString Inputs.article_text]) = false.
Proof.
  apply (main_content_clean Inputs.article_page).
  vm_compute. apply list_elem_of_here.
Defined.


Lemma scrape_url_missing_dependency_witness :
  scrape_url (H := More.libs_offline) "https://example.org/a"
    (Demo.ok Inputs.article_body) =
    error_dict "curl_cffi não está instalado" ∧
  scrape_url_io (H := More.libs_offline) "https://example.org/a" More.world =
    (scrape_url (H := More.libs_offline) "https://example.org/a"
       (Demo.ok Inputs.article_body), More.world).
Proof.
  apply (scrape_url_missing_dependency (H := More.libs_offline)). reflexivity.
Defined.

Lemma search_results_hrefs_witness :
  ∃ response soup link,
    Demo.ok Inputs.results_body = Returned response ∧ status_error response = None ∧
    BeautifulSoup (Libraries := Inputs.libs) (content response) = Returned soup ∧
    link ∈ result_links soup ∧ Bs4.get "href" link = Some "https://example.org/b" ∧
    "https://example.org/b" ≠ EmptyString ∧
    is_ad_or_tracker_url "https://example.org/b" = false.
Proof.
  apply (search_results_hrefs (H := Inputs.libs) (Demo.ok Inputs.results_body) 5).
  vm_compute. apply list_elem_of_further, list_elem_of_here.
Defined.

Lemma search_duckduckgo_not_ready_witness :
  (search_duckduckgo (H := More.libs_offline) "x" 5 More.world).1 = [] ∧
  issued (search_duckduckgo (H := More.libs_offline) "x" 5 More.world).2 =
    issued More.world ∧
  stdout (search_duckduckgo (H := More.libs_offline) "x" 5 More.world).2 =
    stdout More.world.
Proof.
  apply (search_duckduckgo_not_ready (H := More.libs_offline)). reflexivity.
Defined.

Lemma filter_urls_low_limit_witness :
  filter_urls (H := More.libs) More.config0
    ["https://blocked.com/a"; "https://example.org/b"; "https://example.org/c"] =
  option_list
    (head (filter (λ url, is_domain_blocked (H := More.libs) url
                            (default [] (excluded_domains More.config0)) = false)
             ["https://blocked.com/a"; "https://example.org/b"; "https://example.org/c"])).
Proof.
  apply (filter_urls_low_limit (H := More.libs)). unfold total_limit. simpl. lia.
Defined.

Lemma smart_search_impl_general_only_witness :
  searches (smart_search_impl (H := More.libs) "x" More.config_plain More.world).2 =
    searches More.world ++ [("x", (total_limit More.config_plain `div` 2)%Z)] ∧
  (Z.of_nat (length (smart_search_impl (H := More.libs) "x" More.config_plain
                       More.world).1) ≤ total_limit More.config_plain `div` 2)%Z.
Proof.
  apply (smart_search_impl_general_only (H := More.libs)).
  - simpl. constructor.
  - reflexivity.
  - unfold total_limit. simpl. lia.
Defined.


Lemma scrape_urls_bulk_impl_missing_dependency_witness :
  (scrape_urls_bulk_impl (H := More.libs_offline)
     ["https://example.org/a"; "https://example.org/b"] More.world).1 = [].
Proof.
  apply (scrape_urls_bulk_impl_missing_dependency (H := More.libs_offline)). reflexivity.
Defined.

Lemma script_check_answer_witness :
  ∃ data,
    script (H := More.libs_offline) (Inputs.command_line "check") More.world =
      (0%Z, printed data More.world) ∧
    (dependencies_available (H := More.libs_offline) = true →
     data = [("type", VStr "success");
             ("message", VStr "All dependencies available")]) ∧
    (dependencies_available (H := More.libs_offline) = false →
     ∃ message,
       data = error_dict message ∧
       String.prefix "Missing: " message = true ∧
       (CURL_CFFI_AVAILABLE (Libraries := More.libs_offline) = false →
        Py.contains "curl_cffi" message = true) ∧
       (BS4_AVAILABLE (Libraries := More.libs_offline) = false →
        Py.contains "beautifulsoup4" message = true) ∧
       (HTML2TEXT_AVAILABLE (Libraries := More.libs_offline) = false →
        Py.contains "html2text" message = true)).
Proof.
  apply (script_check_answer (H := More.libs_offline) (Inputs.command_line "check")
           (Inputs.no_fields (Some "check")) More.world).
  - vm_compute. discriminate.
  - vm_compute. reflexivity.
  - reflexivity.
Defined.

Lemma script_search_default_limit_witness :
  ∃ urls,
    stdout (script (H := More.libs) (More.query_line "search_duckduckgo" "x")
              More.world).2 =
      stdout More.world ++ [VDict (success_urls urls)] ∧
    urls = (search_duckduckgo (H := More.libs) "x" 5 More.world).1 ∧
    length urls ≤ 5.
Proof.
  apply (script_search_default_limit (H := More.libs)
           (More.query_line "search_duckduckgo" "x")
           (More.with_query "search_duckduckgo" "x") "x" More.world).
  - vm_compute. discriminate.
  - vm_compute. reflexivity.
  - reflexivity.
  - reflexivity.
  - discriminate.
  - reflexivity.
Defined.

Lemma script_search_not_ready_witness :
  let command_data := More.with_query "smart_search" "x" in
  let out := script (H := More.libs_offline) (More.query_line "smart_search" "x")
               More.world in
  (cmd_command command_data = Some "search_duckduckgo" ∨
   cmd_command command_data = Some "smart_search" →
   stdout out.2 = stdout More.world ++ [VDict (success_urls [])]) ∧
  (cmd_command command_data = Some "search_and_scrape" →
   stdout out.2 = stdout More.world ++ [VDict (success_results [])]) ∧
  (cmd_command command_data ∈
     [Some "search_duckduckgo"; Some "smart_search"; Some "search_and_scrape"] →
   issued out.2 = issued More.world).
Proof.
  intros command_data out.
  apply (script_search_not_ready (H := More.libs_offline)
           (More.query_line "smart_search" "x") command_data "x" More.world).
  - vm_compute. discriminate.
  - vm_compute. reflexivity.
  - reflexivity.
  - discriminate.
  - reflexivity.
Defined.

Lemma script_search_and_scrape_bound_witness :
  let config := {| total_sources_limit := None; categories := None;
                   user_custom_sites := None; excluded_domains := None |} in
  let out := script (H := More.libs) (More.query_line "search_and_scrape" "x")
               More.world in
  ∃ results,
    stdout out.2 = stdout More.world ++ [VDict (success_results results)] ∧
    (Z.of_nat (length results) ≤ total_limit config)%Z ∧
    Forall (λ result, is_success result = true) results ∧
    issued out.2 ≤
      issued More.world + length (Spec.queries "x" config) +
      Z.to_nat (total_limit config).
Proof.
  intros config out.
  apply (script_search_and_scrape_bound (H := More.libs)
           (More.query_line "search_and_scrape" "x")
           (More.with_query "search_and_scrape" "x") "x" More.world).
  - vm_compute. discriminate.
  - vm_compute. reflexivity.
  - reflexivity.
  - reflexivity.
  - discriminate.
  - reflexivity.
Defined.

Lemma search_results_page_witness :
  search_results (H := Inputs.libs) (Demo.ok Inputs.results_body) 1 =
    take (Z.to_nat (1 `max` 1))
      (omap Spec.organic_href (result_links Inputs.results_page)).
Proof.
  apply (search_results_page (H := Inputs.libs)
           {| status_error := None; content := Inputs.results_body;
              text := Inputs.results_body |} Inputs.results_page 1).
  - reflexivity.
  - vm_compute. reflexivity.
Defined.



Lemma script_not_an_object_witness :
  script (H := Inputs.libs) (Inputs.jstr "not json") More.world =
    (0%Z, printed (error_dict ("Critical error: '" +:+ "str"
                                 +:+ "' object has no attribute 'get'")) More.world).
Proof.
  apply (script_not_an_object (H := Inputs.libs) (Inputs.jstr "not json") "str"
           More.world).
  - vm_compute. discriminate.
  - vm_compute. reflexivity.
Defined.
